(** * Smart Dust simulation: a shallow embedding of [smart_dust_system.py]

    The development follows the classes of the Python module:
    [DustReading], [SmartDustMote], [DataProcessor] and [AlertSystem].
    Python [float]s are IEEE 754 binary64 numbers; they are embedded as
    Rocq's primitive floats, whose operations are the same binary64
    operations.  A Python [dict] with fixed keys is a record, the pollution
    map (keyed by mote id) is a [gmap string _], lists and deques are
    lists with the oldest element first. *)

From Stdlib Require Import ZArith List Bool Lia.
From Stdlib Require Import Floats Ascii DecimalString DecimalNat.
From stdpp Require Import base option list strings gmap.

Local Open Scope Z_scope.
Set Warnings "-inexact-float".

(** ** Python numbers *)

Module Py.

(** [a > b] and [a < b] on floats; both are [False] when an operand is NaN. *)
Definition gt (a b : float) : bool := PrimFloat.ltb b a.
Definition lt (a b : float) : bool := PrimFloat.ltb a b.
Definition ge (a b : float) : bool := PrimFloat.leb b a.
Definition le (a b : float) : bool := PrimFloat.leb a b.

End Py.

(** ** [DustReading] *)

Record DustReading := mkReading {
  mote_id : string;
  timestamp : Z;
  pm25 : float;
  pm10 : float;
  temperature : float;
  humidity : float;
  location : float * float
}.

(** Class constants of [SmartDustMote]. *)
Definition PM25_SAFE_THRESHOLD : float := 25.0%float.
Definition PM10_SAFE_THRESHOLD : float := 50.0%float.

(** ** [DataProcessor.analyze_reading] *)

Inductive Status := SAFE | UNSAFE.
Inductive Severity := LOW | MODERATE | HIGH | CRITICAL.

Record Analysis := mkAnalysis {
  status : Status;
  severity : Severity;
  pm25_level : float;
  pm10_level : float;
  pm25_threshold : float;
  pm10_threshold : float
}.

(** The two local variables [status] and [severity] are threaded through
    the two [if] statements in program order. *)
Definition analyze_pm25 (r : DustReading) (st : Status * Severity) : Status * Severity :=
  if Py.gt (pm25 r) PM25_SAFE_THRESHOLD then
    (UNSAFE,
     if Py.gt (pm25 r) 50 then CRITICAL
     else if Py.gt (pm25 r) 35 then HIGH
     else MODERATE)
  else st.

Definition analyze_pm10 (r : DustReading) (st : Status * Severity) : Status * Severity :=
  if Py.gt (pm10 r) PM10_SAFE_THRESHOLD then
    (UNSAFE,
     if Py.gt (pm10 r) 100 then CRITICAL
     else if Py.gt (pm10 r) 70 then HIGH
     else MODERATE)
  else st.

Definition analyze_reading (r : DustReading) : Analysis :=
  let st0 := (SAFE, LOW) in
  let st1 := analyze_pm25 r st0 in
  let st2 := analyze_pm10 r st1 in
  {| status := fst st2;
     severity := snd st2;
     pm25_level := pm25 r;
     pm10_level := pm10 r;
     pm25_threshold := PM25_SAFE_THRESHOLD;
     pm10_threshold := PM10_SAFE_THRESHOLD |}.

(** The tier a single pollutant suggests, as the specification tabulates it. *)
Definition pm25_tier (x : float) : Severity :=
  if Py.gt x 50 then CRITICAL else if Py.gt x 35 then HIGH else MODERATE.
Definition pm10_tier (x : float) : Severity :=
  if Py.gt x 100 then CRITICAL else if Py.gt x 70 then HIGH else MODERATE.

(** ** Exceptions

    A Python call either returns a value or raises. *)

Inductive exn :=
  | ZeroDivisionError
  | ValueError
  | UserError (msg : string).

Inductive result (A : Type) :=
  | Ok (a : A)
  | Raise (e : exn).
Arguments Ok {A} a.
Arguments Raise {A} e.

(** [result] is a monad; stdpp's notation [x ← c; k] sequences two calls. *)
#[global] Instance result_ret : MRet result := fun A a => Ok a.
#[global] Instance result_bind : MBind result := fun A B f x =>
  match x with
  | Ok a => f a
  | Raise e => Raise e
  end.

(** ** Builtins on numbers and sequences *)

Module Builtin.

(** [max(a, b)] keeps [a] unless [b > a]; [min(a, b)] keeps [a] unless [b < a]. *)
Definition max (a b : float) : float := if Py.gt b a then b else a.
Definition min (a b : float) : float := if Py.lt b a then b else a.

(** [max(xs)] and [min(xs)] on a list: [ValueError] on the empty list. *)
Definition max_list (xs : list float) : result float :=
  match xs with
  | [] => Raise ValueError
  | x :: t => Ok (fold_left max t x)
  end.
Definition min_list (xs : list float) : result float :=
  match xs with
  | [] => Raise ValueError
  | x :: t => Ok (fold_left min t x)
  end.

(** [sum(xs)]: additions from left to right, starting from [0]. *)
Definition sum (xs : list float) : float := fold_left PrimFloat.add xs 0%float.

(** [len(xs)] converted to a float, as [/] does with an [int] operand. *)
Definition float_of_nat (n : nat) : float :=
  PrimFloat.of_uint63 (Uint63.of_Z (Z.of_nat n)).

(** [x / len(xs)]: dividing by zero raises. *)
Definition div_len (x : float) (n : nat) : result float :=
  match n with
  | O => Raise ZeroDivisionError
  | S _ => Ok (x / float_of_nat n)%float
  end.

(** The integer nearest to [n / d] for [d > 0], ties going to the even one. *)
Definition round_half_even_div (n d : Z) : Z :=
  let q := n / d in
  let r := n mod d in
  match 2 * r ?= d with
  | Lt => q
  | Gt => q + 1
  | Eq => if Z.even q then q else q + 1
  end.

(** The number of hundredths nearest to the exact value [m * 2^e]. *)
Definition hundredths (m : positive) (e : Z) : Z :=
  if 0 <=? e then Z.pos m * 2 ^ e * 100
  else round_half_even_div (Z.pos m * 100) (2 ^ (- e)).

(** [round(x, 2)] on a float.  CPython prints the exact binary value of
    [x] with two digits after the point, correctly rounded (ties to
    even), and reads that decimal back as the nearest double; NaN,
    infinities and zeros are returned as they are. *)
Definition round2_SF (x : spec_float) : spec_float :=
  match x with
  | S754_finite s m e =>
      match hundredths m e with
      | Z.pos k => SFdiv prec emax (S754_finite s k 0) (S754_finite false 100 0)
      | _ => S754_zero s
      end
  | _ => x
  end.

Definition round2 (x : float) : float := SF2Prim (round2_SF (Prim2SF x)).

(** [xs[start:]]: a negative [start] counts from the end, and the bound
    is clipped to the list. *)
Definition slice_from {A} (start : Z) (xs : list A) : list A :=
  let n := Z.of_nat (length xs) in
  let i := if start <? 0 then Z.max (start + n) 0 else Z.min start n in
  drop (Z.to_nat i) xs.

(** [deque(maxlen=n).append(x)]: append on the right, then drop the
    leftmost element when the length exceeds [maxlen]. *)
Definition deque_append {A} (maxlen : nat) (x : A) (d : list A) : list A :=
  let d' := d ++ [x] in
  if (maxlen <? length d')%nat then tail d' else d'.

End Builtin.

(** ** [SmartDustMote] *)

Record SmartDustMote := mkMote {
  m_mote_id : string;
  m_location : float * float;
  base_pollution : float;
  is_active : bool;
  reading_history : list DustReading
}.

(** Capacity of [reading_history] ([deque(maxlen=100)]). *)
Definition HISTORY_MAXLEN : nat := 100.

(** [SmartDustMote.__init__]: the three arguments are stored as given. *)
Definition SmartDustMote_init (id : string) (loc : float * float)
    (base : float) : result SmartDustMote :=
  Ok {| m_mote_id := id;
        m_location := loc;
        base_pollution := base;
        is_active := true;
        reading_history := [] |}.

(** The five values [random.gauss] returns during one call of [sense],
    in call order, and the clock read by [datetime.now()]. *)
Record Draws := mkDraws {
  g_time : float;
  g_pm25 : float;
  g_pm10 : float;
  g_temp : float;
  g_hum : float
}.

Definition sense_pm25 (m : SmartDustMote) (d : Draws) : float :=
  let pm25_base := (10.0 + base_pollution m * 40.0)%float in
  let time_factor := (1.0 + 0.3 * g_time d)%float in
  Builtin.max 0 (pm25_base * time_factor + g_pm25 d)%float.

Definition sense_pm10 (m : SmartDustMote) (d : Draws) : float :=
  let pm10_base := (20.0 + base_pollution m * 60.0)%float in
  let time_factor := (1.0 + 0.3 * g_time d)%float in
  Builtin.max 0 (pm10_base * time_factor + g_pm10 d)%float.

Definition sense_temperature (d : Draws) : float := (20.0 + g_temp d)%float.

Definition sense_humidity (d : Draws) : float :=
  let humidity := (40.0 + g_hum d)%float in
  Builtin.max 0 (Builtin.min 100 humidity).

(** [SmartDustMote.sense]: the reading and the mote after the call. *)
Definition sense (m : SmartDustMote) (d : Draws) (now : Z)
    : DustReading * SmartDustMote :=
  let reading :=
    {| mote_id := m_mote_id m;
       timestamp := now;
       pm25 := Builtin.round2 (sense_pm25 m d);
       pm10 := Builtin.round2 (sense_pm10 m d);
       temperature := Builtin.round2 (sense_temperature d);
       humidity := Builtin.round2 (sense_humidity d);
       location := m_location m |} in
  (reading,
   {| m_mote_id := m_mote_id m;
      m_location := m_location m;
      base_pollution := base_pollution m;
      is_active := is_active m;
      reading_history :=
        Builtin.deque_append HISTORY_MAXLEN reading (reading_history m) |}).

(** [SmartDustMote.get_average_pollution]: the pair [(pm25, pm10)]. *)
Definition get_average_pollution (m : SmartDustMote) : result (float * float) :=
  match reading_history m with
  | [] => Ok (0.0%float, 0.0%float)
  | _ =>
      let n := length (reading_history m) in
      avg_pm25 ← Builtin.div_len (Builtin.sum (map pm25 (reading_history m))) n;
      avg_pm10 ← Builtin.div_len (Builtin.sum (map pm10 (reading_history m))) n;
      Ok (Builtin.round2 avg_pm25, Builtin.round2 avg_pm10)
  end.

(** [SmartDustMote.is_pollution_unsafe]. *)
Definition is_pollution_unsafe (r : DustReading) : bool :=
  Py.gt (pm25 r) PM25_SAFE_THRESHOLD || Py.gt (pm10 r) PM10_SAFE_THRESHOLD.

(** ** [DataProcessor] *)

(** [alert_history] is initialised to the empty list and never used. *)
Record DataProcessor := mkProcessor {
  all_readings : list DustReading
}.

Definition DataProcessor_init : DataProcessor := {| all_readings := [] |}.

(** [DataProcessor.add_reading]. *)
Definition add_reading (p : DataProcessor) (r : DustReading) : DataProcessor :=
  let xs := all_readings p ++ [r] in
  {| all_readings :=
       if (1000 <? length xs)%nat then Builtin.slice_from (-1000) xs else xs |}.

(** The dictionary with the eight keys of [get_statistics]. *)
Record Statistics := mkStatistics {
  total_readings : nat;
  recent_readings : nat;
  avg_pm25 : float;
  avg_pm10 : float;
  max_pm25 : float;
  max_pm10 : float;
  min_pm25 : float;
  min_pm10 : float
}.

(** [DataProcessor.get_statistics]; [None] is the empty dictionary.  The
    keyword arguments of the returned dictionary are evaluated in the
    order they are written. *)
Definition get_statistics (p : DataProcessor) : result (option Statistics) :=
  match all_readings p with
  | [] => Ok None
  | _ =>
      let recent := Builtin.slice_from (-100) (all_readings p) in
      let pm25_values := map pm25 recent in
      let pm10_values := map pm10 recent in
      a25 ← Builtin.div_len (Builtin.sum pm25_values) (length pm25_values);
      a10 ← Builtin.div_len (Builtin.sum pm10_values) (length pm10_values);
      M25 ← Builtin.max_list pm25_values;
      M10 ← Builtin.max_list pm10_values;
      m25 ← Builtin.min_list pm25_values;
      m10 ← Builtin.min_list pm10_values;
      Ok (Some {| total_readings := length (all_readings p);
                  recent_readings := length recent;
                  avg_pm25 := Builtin.round2 a25;
                  avg_pm10 := Builtin.round2 a10;
                  max_pm25 := Builtin.round2 M25;
                  max_pm10 := Builtin.round2 M10;
                  min_pm25 := Builtin.round2 m25;
                  min_pm10 := Builtin.round2 m10 |})
  end.

(** One value of the pollution map. *)
Record MapEntry := mkEntry {
  e_location : float * float;
  e_pm25 : float;
  e_pm10 : float;
  e_status : Status
}.

Definition map_entry (m : SmartDustMote) (avg : float * float) : MapEntry :=
  {| e_location := m_location m;
     e_pm25 := fst avg;
     e_pm10 := snd avg;
     e_status :=
       if Py.gt (fst avg) PM25_SAFE_THRESHOLD || Py.gt (snd avg) PM10_SAFE_THRESHOLD
       then UNSAFE else SAFE |}.

(** The loop of [get_pollution_map], from a map built so far. *)
Fixpoint pollution_map_loop (motes : list SmartDustMote)
    (pollution_map : gmap string MapEntry) : result (gmap string MapEntry) :=
  match motes with
  | [] => Ok pollution_map
  | mote :: rest =>
      if is_active mote then
        avg ← get_average_pollution mote;
        pollution_map_loop rest (<[m_mote_id mote := map_entry mote avg]> pollution_map)
      else pollution_map_loop rest pollution_map
  end.

(** [DataProcessor.get_pollution_map]. *)
Definition get_pollution_map (motes : list SmartDustMote)
    : result (gmap string MapEntry) :=
  pollution_map_loop motes ∅.

(** ** [AlertSystem] *)

(** One entry of the list [issues] of [_generate_alert_message]: the
    pollutant, its measured value and the threshold it exceeded. *)
Inductive Issue :=
  | IssuePM25 (value threshold : float)
  | IssuePM10 (value threshold : float).

(** The alert message, kept as the data its f-string is formatted from:
    the severity tier, the mote id and the issues in order. *)
Record Message := mkMessage {
  msg_severity : Severity;
  msg_mote_id : string;
  msg_issues : list Issue
}.

Record Alert := mkAlert {
  a_timestamp : Z;
  a_mote_id : string;
  a_location : float * float;
  a_severity : Severity;
  a_pm25 : float;
  a_pm10 : float;
  a_message : Message
}.

(** [AlertSystem._generate_alert_message]. *)
Definition generate_alert_message (r : DustReading) (a : Analysis) : Message :=
  let issues1 :=
    if Py.gt (pm25 r) PM25_SAFE_THRESHOLD
    then [IssuePM25 (pm25 r) PM25_SAFE_THRESHOLD] else [] in
  let issues2 :=
    if Py.gt (pm10 r) PM10_SAFE_THRESHOLD
    then issues1 ++ [IssuePM10 (pm10 r) PM10_SAFE_THRESHOLD] else issues1 in
  {| msg_severity := severity a; msg_mote_id := mote_id r; msg_issues := issues2 |}.

Definition make_alert (r : DustReading) (a : Analysis) : Alert :=
  {| a_timestamp := timestamp r;
     a_mote_id := mote_id r;
     a_location := location r;
     a_severity := severity a;
     a_pm25 := pm25 r;
     a_pm10 := pm10 r;
     a_message := generate_alert_message r a |}.

(** Capacity of the alert log. *)
Definition ALERTS_MAXLEN : nat := 100.

Section AlertSystem.

(** [W] is the state the observers act on (a console, a log, ...). *)
Context {W : Type}.

(** A callback receives the alert, changes the observers' state, and
    either returns ([None]) or raises ([Some e]). *)
Definition Callback : Type := Alert -> W -> W * option exn.

Record AlertSystem := mkAlertSystem {
  alerts : list Alert;
  alert_callbacks : list Callback
}.

Definition AlertSystem_init : AlertSystem :=
  {| alerts := []; alert_callbacks := [] |}.

(** [AlertSystem.register_callback]. *)
Definition register_callback (s : AlertSystem) (cb : Callback) : AlertSystem :=
  {| alerts := alerts s; alert_callbacks := alert_callbacks s ++ [cb] |}.

(** What one run of the loop [for callback in self.alert_callbacks]
    leaves behind: the observers' state, the positions (in registration
    order) of the callbacks that were called, and the exception that
    ended the loop, if any. *)
Record Notified := mkNotified {
  n_world : W;
  n_called : list nat;
  n_raised : option exn
}.

(** The loop over the callbacks from position [i] on: an exception
    raised by [callback(alert)] is not caught, so it ends the loop. *)
Fixpoint trigger_callbacks (cbs : list Callback) (i : nat) (alert : Alert)
    (w : W) : Notified :=
  match cbs with
  | [] => {| n_world := w; n_called := []; n_raised := None |}
  | callback :: rest =>
      match callback alert w with
      | (w', None) =>
          let r := trigger_callbacks rest (S i) alert w' in
          {| n_world := n_world r;
             n_called := i :: n_called r;
             n_raised := n_raised r |}
      | (w', Some e) =>
          {| n_world := w'; n_called := [i]; n_raised := Some e |}
      end
  end.

(** [AlertSystem.check_and_alert]: the alert system after the call and
    the outcome of the notification loop. *)
Definition check_and_alert (s : AlertSystem) (r : DustReading) (a : Analysis)
    (w : W) : AlertSystem * Notified :=
  match status a with
  | UNSAFE =>
      let alert := make_alert r a in
      let xs := alerts s ++ [alert] in
      let xs' :=
        if (ALERTS_MAXLEN <? length xs)%nat
        then Builtin.slice_from (-100) xs else xs in
      ({| alerts := xs'; alert_callbacks := alert_callbacks s |},
       trigger_callbacks (alert_callbacks s) 0 alert w)
  | SAFE =>
      (s, {| n_world := w; n_called := []; n_raised := None |})
  end.

(** [AlertSystem.get_recent_alerts]. *)
Definition get_recent_alerts (s : AlertSystem) (count : Z) : list Alert :=
  match alerts s with
  | [] => []
  | _ => Builtin.slice_from (- count) (alerts s)
  end.

End AlertSystem.

Arguments AlertSystem W : clear implicits.
Arguments Callback W : clear implicits.
Arguments Notified W : clear implicits.

(** ** Runs of operations *)

(** The [n] most recent entries of a list kept in arrival order. *)
Definition last_n {A} (n : nat) (xs : list A) : list A :=
  drop (length xs - n) xs.

(** Successive calls of [sense] on one mote: the readings returned, in
    call order, and the mote after the last call. *)
Fixpoint sense_all (m : SmartDustMote) (inputs : list (Draws * Z))
    : list DustReading * SmartDustMote :=
  match inputs with
  | [] => ([], m)
  | (d, now) :: rest =>
      let '(r, m1) := sense m d now in
      let '(rs, m2) := sense_all m1 rest in
      (r :: rs, m2)
  end.

(** Successive calls of [add_reading]. *)
Definition ingest_all (p : DataProcessor) (rs : list DustReading) : DataProcessor :=
  fold_left add_reading rs p.

(** The operations that change an alert system. *)
Inductive AlertOp (W : Type) :=
  | OpRegister (cb : Callback W)
  | OpCheck (r : DustReading) (a : Analysis).
Arguments OpRegister {W} cb.
Arguments OpCheck {W} r a.

(** A run of operations; a caller that catches the exception of a
    callback goes on with the state the call left behind. *)
Fixpoint run_alert_ops {W} (s : AlertSystem W) (w : W) (ops : list (AlertOp W))
    : AlertSystem W * W :=
  match ops with
  | [] => (s, w)
  | OpRegister cb :: rest => run_alert_ops (register_callback s cb) w rest
  | OpCheck r a :: rest =>
      let '(s1, n) := check_and_alert s r a w in
      run_alert_ops s1 (n_world n) rest
  end.

(** The alerts a run generates, in arrival order. *)
Fixpoint generated_alerts {W} (ops : list (AlertOp W)) : list Alert :=
  match ops with
  | [] => []
  | OpRegister _ :: rest => generated_alerts rest
  | OpCheck r a :: rest =>
      match status a with
      | UNSAFE => make_alert r a :: generated_alerts rest
      | SAFE => generated_alerts rest
      end
  end.

(** The observers' state after the callbacks [cbs] were called in order
    with [alert], each one starting from the state the previous one left. *)
Definition world_after {W} (cbs : list (Callback W)) (alert : Alert) (w : W) : W :=
  fold_left (fun w cb => fst (cb alert w)) cbs w.

(** Two observers over a journal of tags: one writes its tag and returns,
    the other writes its tag and raises. *)
Definition logging_callback (tag : string) : Callback (list string) :=
  fun _ journal => (journal ++ [tag], None).
Definition failing_callback (tag : string) : Callback (list string) :=
  fun _ journal => (journal ++ [tag], Some (UserError tag)).

(** An alert system with two observers, the first of which raises. *)
Definition two_observers : AlertSystem (list string) :=
  register_callback
    (register_callback AlertSystem_init (failing_callback "first"))
    (logging_callback "second").

(** The window [get_statistics] computes over, and the maximum and
    minimum of a non-empty list as [max] and [min] find them. *)
Definition recent_window (p : DataProcessor) : list DustReading :=
  last_n 100 (all_readings p).
Definition list_max (xs : list float) : float :=
  fold_left Builtin.max (tail xs) (hd 0%float xs).
Definition list_min (xs : list float) : float :=
  fold_left Builtin.min (tail xs) (hd 0%float xs).
Definition mean (xs : list float) : float :=
  (Builtin.sum xs / Builtin.float_of_nat (length xs))%float.

(** Draws that are all zero: no noise. *)
Definition quiet : Draws := mkDraws 0 0 0 0 0.

(** The two averages of a mote: the means of its history rounded to two
    decimals, and zero for an empty history. *)
Definition average_pollution (m : SmartDustMote) : float * float :=
  match reading_history m with
  | [] => (0.0%float, 0.0%float)
  | _ => (Builtin.round2 (mean (map pm25 (reading_history m))),
          Builtin.round2 (mean (map pm10 (reading_history m))))
  end.

(** The motes [get_pollution_map] visits. *)
Definition active_motes (motes : list SmartDustMote) : list SmartDustMote :=
  List.filter is_active motes.


(** Two motes: an active one that has sensed once and an inactive one. *)
Definition mote_a : SmartDustMote :=
  mkMote "MOTE-001" (1, 2)%float 0.5 true
    [mkReading "MOTE-001" 0 30 10 20 40 (1, 2)%float].
Definition mote_b : SmartDustMote :=
  mkMote "MOTE-002" (3, 4)%float 0.1 false [].

(** Values that compare [>= 0]: the zeros, [+inf] and the positive finite
    numbers. *)
Definition nonneg_SF (x : spec_float) : Prop :=
  match x with
  | S754_zero _ => True
  | S754_infinity s | S754_finite s _ _ => s = false
  | S754_nan => False
  end.

(** The double [100.0]. *)
Definition SF100 : spec_float := S754_finite false 7036874417766400 (-46).

(** The double nearest to [k / 100], and the check that it is a valid
    double not above 100, for one [k] and for all [k] up to a bound. *)
Definition hundredth_SF (k : positive) : spec_float :=
  SFdiv prec emax (S754_finite false k 0) (S754_finite false 100 0).

Definition hundredth_ok (k : positive) : bool :=
  valid_binary (hundredth_SF k) && SFleb (hundredth_SF k) SF100.

Fixpoint hundredths_ok_upto (n : nat) : bool :=
  match n with
  | O => true
  | S n' => hundredth_ok (Pos.of_nat n) && hundredths_ok_upto n'
  end.

(** The positive finite doubles, and the check that the lengths 1 to [n]
    convert to such doubles. *)
Definition positive_finite_SF (x : spec_float) : bool :=
  match x with
  | S754_finite false _ _ => true
  | _ => false
  end.

Fixpoint lengths_ok_upto (n : nat) : bool :=
  match n with
  | O => true
  | S n' => positive_finite_SF (Prim2SF (Builtin.float_of_nat n)) && lengths_ok_upto n'
  end.

(** The PM2.5 and PM10 values of a reading are both [>= 0]. *)
Definition nonneg_reading (r : DustReading) : Prop :=
  Py.ge (pm25 r) 0 = true /\ Py.ge (pm10 r) 0 = true.

(** ** [SmartDustSimulation] *)

(** [k] characters ["0"]. *)
Fixpoint zeros (k : nat) : string :=
  match k with
  | O => EmptyString
  | S k' => String "0"%char (zeros k')
  end.

(** The format [{n:03d}]: the decimal digits of [n], padded on the left
    with zeros to a width of at least three. *)
Definition format_03d (n : nat) : string :=
  let digits := NilEmpty.string_of_uint (Nat.to_uint n) in
  String.append (zeros (3 - String.length digits)) digits.

(** [f"MOTE-{i+1:03d}"]. *)
Definition mote_name (i : nat) : string :=
  String.append "MOTE-" (format_03d (i + 1)).

(** What the simulation writes on the console, kept as the data the
    lines are formatted from: the two lines of [_on_alert], and the block
    of [_display_status]. *)
Inductive Printed :=
  | PrintedAlert (message : Message) (loc : float * float) (time : Z)
  | PrintedStatus (total : nat) (avg25 avg10 max25 max10 : float)
                  (recent_alerts : nat).

Definition Console : Type := list Printed.

(** [SmartDustSimulation._on_alert]. *)
Definition on_alert : Callback Console :=
  fun alert console =>
    (console ++ [PrintedAlert (a_message alert) (a_location alert) (a_timestamp alert)],
     None).

Record SmartDustSimulation := mkSimulation {
  motes : list SmartDustMote;
  processor : DataProcessor;
  alert_system : AlertSystem Console;
  is_running : bool;
  sampling_interval : float
}.

(** The loop of [SmartDustSimulation.__init__] that creates the motes;
    [layout i] holds the three values [random.uniform] returns for the
    mote of index [i]: its coordinates and its intensity. *)
Fixpoint create_motes (indices : list nat)
    (layout : nat -> (float * float) * float) : result (list SmartDustMote) :=
  match indices with
  | [] => Ok []
  | i :: rest =>
      let '(location, base_pollution) := layout i in
      mote ← SmartDustMote_init (mote_name i) location base_pollution;
      others ← create_motes rest layout;
      Ok (mote :: others)
  end.

(** [SmartDustSimulation.__init__]; [range(num_motes)] is empty for a
    negative [num_motes]. *)
Definition SmartDustSimulation_init (num_motes : Z)
    (layout : nat -> (float * float) * float) : result SmartDustSimulation :=
  created ← create_motes (seq 0 (Z.to_nat num_motes)) layout;
  Ok {| motes := created;
        processor := DataProcessor_init;
        alert_system := register_callback AlertSystem_init on_alert;
        is_running := false;
        sampling_interval := 2.0 |}.

(** The state one pass over the motes threads through: the motes already
    visited (in order), the processor, the alert system, the console and
    the number of calls of [sense] made so far, which indexes the random
    draws and clock readings [rng]. *)
Record Pass := mkPass {
  p_motes : list SmartDustMote;
  p_processor : DataProcessor;
  p_alerts : AlertSystem Console;
  p_console : Console;
  p_ticks : nat
}.

(** The body of [for mote in self.motes] in [start_simulation], for one
    mote: sense, ingest, analyze, alert.  An exception raised by a callback
    leaves the loop. *)
Definition process_mote (rng : nat -> Draws * Z) (st : Pass)
    (mote : SmartDustMote) : result Pass :=
  if is_active mote then
    let '(d, now) := rng (p_ticks st) in
    let '(reading, mote') := sense mote d now in
    let processor' := add_reading (p_processor st) reading in
    let analysis := analyze_reading reading in
    let '(alerts', notified) :=
      check_and_alert (p_alerts st) reading analysis (p_console st) in
    match n_raised notified with
    | Some e => Raise e
    | None =>
        Ok {| p_motes := p_motes st ++ [mote'];
              p_processor := processor';
              p_alerts := alerts';
              p_console := n_world notified;
              p_ticks := S (p_ticks st) |}
    end
  else
    Ok {| p_motes := p_motes st ++ [mote];
          p_processor := p_processor st;
          p_alerts := p_alerts st;
          p_console := p_console st;
          p_ticks := p_ticks st |}.

Fixpoint process_motes (rng : nat -> Draws * Z) (st : Pass)
    (todo : list SmartDustMote) : result Pass :=
  match todo with
  | [] => Ok st
  | mote :: rest =>
      st' ← process_mote rng st mote;
      process_motes rng st' rest
  end.

(** The numbers [_display_status] prints: a missing key reads as 0. *)
Definition display_status (stats : option Statistics) (recent : list Alert)
    : Printed :=
  match stats with
  | Some st =>
      PrintedStatus (total_readings st) (avg_pm25 st) (avg_pm10 st)
        (max_pm25 st) (max_pm10 st) (length recent)
  | None => PrintedStatus 0 0 0 0 0 (length recent)
  end.

(** The simulation between two iterations of the [while] loop: its
    state, the console, the sense calls made and the iteration counter. *)
Record Running := mkRunning {
  r_sim : SmartDustSimulation;
  r_console : Console;
  r_ticks : nat;
  r_iteration : nat
}.

(** One iteration of the [while] loop of [start_simulation], without the
    pause: a pass over the motes, then the status every fifth iteration. *)
Definition iteration_step (rng : nat -> Draws * Z) (r : Running) : result Running :=
  let iteration := S (r_iteration r) in
  let sim := r_sim r in
  st ← process_motes rng
        {| p_motes := [];
           p_processor := processor sim;
           p_alerts := alert_system sim;
           p_console := r_console r;
           p_ticks := r_ticks r |}
        (motes sim);
  let sim' := {| motes := p_motes st;
                 processor := p_processor st;
                 alert_system := p_alerts st;
                 is_running := is_running sim;
                 sampling_interval := sampling_interval sim |} in
  console' ←
    (if (iteration mod 5 =? 0)%nat then
       stats ← get_statistics (p_processor st);
       Ok (p_console st ++ [display_status stats (get_recent_alerts (p_alerts st) 3)])
     else Ok (p_console st));
  Ok {| r_sim := sim'; r_console := console';
        r_ticks := p_ticks st; r_iteration := iteration |}.

(** [n] iterations of the loop. *)
Fixpoint iterations (rng : nat -> Draws * Z) (n : nat) (r : Running)
    : result Running :=
  match n with
  | O => Ok r
  | S n' =>
      r' ← iteration_step rng r;
      iterations rng n' r'
  end.

(** [start_simulation] up to its loop: the simulation is marked running
    and the iteration counter starts at zero. *)
Definition start (sim : SmartDustSimulation) (console : Console) : Running :=
  {| r_sim := {| motes := motes sim;
                 processor := processor sim;
                 alert_system := alert_system sim;
                 is_running := true;
                 sampling_interval := sampling_interval sim |};
     r_console := console; r_ticks := 0; r_iteration := 0 |}.

(** One entry of ["recent_readings"] in [get_data_for_visualization]. *)
Record ReadingView := mkReadingView {
  v_mote_id : string;
  v_timestamp : Z;
  v_pm25 : float;
  v_pm10 : float;
  v_location : float * float
}.

Definition reading_view (r : DustReading) : ReadingView :=
  {| v_mote_id := mote_id r; v_timestamp := timestamp r;
     v_pm25 := pm25 r; v_pm10 := pm10 r; v_location := location r |}.

Record VisualizationData := mkVisualizationData {
  vd_statistics : option Statistics;
  vd_pollution_map : gmap string MapEntry;
  vd_recent_readings : list ReadingView;
  vd_alerts : list Alert
}.

(** [SmartDustSimulation.get_data_for_visualization]. *)
Definition get_data_for_visualization (sim : SmartDustSimulation)
    : result VisualizationData :=
  stats ← get_statistics (processor sim);
  pollution_map ← get_pollution_map (motes sim);
  Ok {| vd_statistics := stats;
        vd_pollution_map := pollution_map;
        vd_recent_readings :=
          map reading_view (Builtin.slice_from (-50) (all_readings (processor sim)));
        vd_alerts := get_recent_alerts (alert_system sim) 10 |}.

(** The alerts printed on a console, in order. *)
Definition printed_alerts (console : Console) : list Printed :=
  List.filter (fun p => match p with PrintedAlert _ _ _ => true | _ => false end)
    console.

Definition printed_of_alert (a : Alert) : Printed :=
  PrintedAlert (a_message a) (a_location a) (a_timestamp a).


(** A reading of one of the motes [names], with values in range. *)
Definition good_reading (names : list string) (r : DustReading) : Prop :=
  In (mote_id r) names /\
  Py.ge (pm25 r) 0 = true /\ Py.ge (pm10 r) 0 = true /\
  Py.ge (humidity r) 0 = true /\ Py.le (humidity r) 100 = true.

(** An alert on one of the motes [names] that reports a real breach. *)
Definition good_alert (names : list string) (a : Alert) : Prop :=
  In (a_mote_id a) names /\
  (Py.gt (a_pm25 a) 25 = true \/ Py.gt (a_pm10 a) 50 = true) /\
  a_severity a <> LOW /\
  msg_severity (a_message a) = a_severity a /\
  msg_issues (a_message a) <> [].

(** What a mote is created with and never changes during a run. *)
Definition mote_identity (m : SmartDustMote)
    : string * (float * float) * float * bool :=
  (m_mote_id m, m_location m, base_pollution m, is_active m).

(** What holds of the processor, the alert system and the console all
    along a run of a simulation whose motes are [names]; [generated] are
    the alerts raised so far, oldest first. *)
Record pass_inv (names : list string) (generated : list Alert) (st : Pass)
    : Prop := mkPassInv {
  pi_callbacks : alert_callbacks (p_alerts st) = [on_alert];
  pi_readings : Forall (good_reading names) (all_readings (p_processor st));
  pi_generated : Forall (good_alert names) generated;
  pi_alerts : alerts (p_alerts st) = last_n 100 generated;
  pi_console : printed_alerts (p_console st) = map printed_of_alert generated;
  pi_count : length (all_readings (p_processor st)) = Nat.min 1000 (p_ticks st)
}.

(** The pass state an iteration starts from. *)
Definition pass_start (r : Running) : Pass :=
  {| p_motes := [];
     p_processor := processor (r_sim r);
     p_alerts := alert_system (r_sim r);
     p_console := r_console r;
     p_ticks := r_ticks r |}.

(** What holds between two iterations of a run that started with all
    motes active. *)
Record run_inv (idents : list (string * (float * float) * float * bool))
    (generated : list Alert) (r : Running) : Prop := mkRunInv {
  ri_pass : pass_inv (map (fun i => fst (fst (fst i))) idents) generated (pass_start r);
  ri_idents : map mote_identity (motes (r_sim r)) = idents;
  ri_active : Forall (fun i => snd i = true) idents;
  ri_histories :
    Forall (fun m => length (reading_history m) = Nat.min 100 (r_iteration r))
      (motes (r_sim r));
  ri_ticks : r_ticks r = (r_iteration r * length idents)%nat;
  ri_running : is_running (r_sim r) = true
}.

(** The numbers and lists of the final report of [stop_simulation]: a
    missing statistic reads as 0, and the recent alerts are listed by
    their messages. *)
Record FinalReport := mkFinalReport {
  fr_total_readings : nat;
  fr_avg_pm25 : float;
  fr_avg_pm10 : float;
  fr_peak_pm25 : float;
  fr_peak_pm10 : float;
  fr_total_alerts : nat;
  fr_recent_alerts : list Message;
  fr_pollution_map : gmap string MapEntry
}.

(** [SmartDustSimulation.stop_simulation]: the simulation after the call
    and the report it prints. *)
Definition stop_simulation (sim : SmartDustSimulation)
    : result (SmartDustSimulation * FinalReport) :=
  let sim' := {| motes := motes sim;
                 processor := processor sim;
                 alert_system := alert_system sim;
                 is_running := false;
                 sampling_interval := sampling_interval sim |} in
  stats ← get_statistics (processor sim');
  let recent :=
    match alerts (alert_system sim') with
    | [] => []
    | _ => map a_message (get_recent_alerts (alert_system sim') 5)
    end in
  pollution_map ← get_pollution_map (motes sim');
  Ok (sim',
      {| fr_total_readings := from_option total_readings 0%nat stats;
         fr_avg_pm25 := from_option avg_pm25 0%float stats;
         fr_avg_pm10 := from_option avg_pm10 0%float stats;
         fr_peak_pm25 := from_option max_pm25 0%float stats;
         fr_peak_pm10 := from_option max_pm10 0%float stats;
         fr_total_alerts := length (alerts (alert_system sim'));
         fr_recent_alerts := recent;
         fr_pollution_map := pollution_map |}).

(** [start_simulation] when its loop runs [k] iterations and no callback
    raises: the loop, then [stop_simulation] in the [finally] clause. *)
Definition start_simulation (rng : nat -> Draws * Z) (k : nat)
    (sim : SmartDustSimulation) (console : Console)
    : result (SmartDustSimulation * Console * FinalReport) :=
  r ← iterations rng k (start sim console);
  '(sim', report) ← stop_simulation (r_sim r);
  Ok (sim', r_console r, report).

(** Rounding to two decimals, said without [round]: [k] is the integer
    nearest to the fraction [n / d], the even one of the two when [n / d]
    lies halfway between them. *)
Definition nearest_integer (n d k : Z) : Prop :=
  2 * Z.abs (n - k * d) <= d /\
  (2 * Z.abs (n - k * d) = d -> Z.even k = true).

(** [y] is [x] rounded to two decimals: a finite [x], of exact value
    [(-1)^s * m * 2^e], has a nearest number of hundredths [k], and [y] is
    the double nearest to [(-1)^s * k / 100]; NaN and the infinities are
    kept. *)
Definition rounded_to_2_decimals (x y : float) : Prop :=
  match Prim2SF x with
  | S754_finite s m e =>
      exists k : Z,
        nearest_integer (Z.pos m * 100 * 2 ^ Z.max e 0) (2 ^ Z.max (- e) 0) k /\
        y = SF2Prim
              match k with
              | Z.pos p => SFdiv prec emax (S754_finite s p 0) (S754_finite false 100 0)
              | _ => S754_zero s
              end
  | _ => y = x
  end.




(** The reading [sense] returns for the mote [m] at the tick [t], the
    number of calls of [sense] made before it: the draws and the clock
    are those of [rng t]. *)
Definition sensed_by (rng : nat -> Draws * Z) (m : SmartDustMote) (t : nat)
    : DustReading :=
  fst (sense m (fst (rng t)) (snd (rng t))).

(** The reading of the tick [t] in a run over the motes [ms], all of
    them active: the loop visits the motes in order, again and again, so
    the tick [t] belongs to the mote of index [t mod (length ms)]. *)
Definition reading_at (rng : nat -> Draws * Z) (ms : list SmartDustMote)
    (t : nat) : option DustReading :=
  m ← ms !! (t mod length ms)%nat; Some (sensed_by rng m t).

(** The readings of the first [k] passes over the motes [ms], in the
    order they are sensed. *)
Definition sensed_readings (rng : nat -> Draws * Z) (ms : list SmartDustMote)
    (k : nat) : list DustReading :=
  omap (reading_at rng ms) (seq 0 (k * length ms)).

(** The alerts [check_and_alert] creates for the readings [xs] handed to
    it one after the other with their analyses: one for each reading
    above a threshold, in order. *)
Definition raised_by (xs : list DustReading) : list Alert :=
  map (fun x => make_alert x (analyze_reading x))
      (List.filter is_pollution_unsafe xs).

(** The readings one pass over [todo] senses from the tick [t] on. *)
Fixpoint pass_readings (rng : nat -> Draws * Z) (t : nat)
    (todo : list SmartDustMote) : list DustReading :=
  match todo with
  | [] => []
  | m :: rest =>
      if is_active m then sensed_by rng m t :: pass_readings rng (S t) rest
      else pass_readings rng t rest
  end.

(** The readings [k] passes over [ms] sense from the tick [t] on. *)
Fixpoint run_readings (rng : nat -> Draws * Z) (k t : nat)
    (ms : list SmartDustMote) : list DustReading :=
  match k with
  | O => []
  | S k' =>
      let sensed := pass_readings rng t ms in
      sensed ++ run_readings rng k' (t + length sensed) ms
  end.

(** What ties the processor, the alert system and the console to the
    readings [xs] sensed so far in a run. *)
Record trace_inv (xs : list DustReading) (st : Pass) : Prop := mkTraceInv {
  ti_callbacks : alert_callbacks (p_alerts st) = [on_alert];
  ti_readings : all_readings (p_processor st) = last_n 1000 xs;
  ti_alerts : alerts (p_alerts st) = last_n 100 (raised_by xs);
  ti_console : printed_alerts (p_console st) = map printed_of_alert (raised_by xs);
  ti_ticks : p_ticks st = length xs
}.

(** Draws and a layout for the examples: no noise, and every mote at the
    origin with the largest intensity. *)
Definition calm : nat -> Draws * Z := fun _ => (quiet, 0).
Definition dusty : nat -> (float * float) * float :=
  fun _ => ((0, 0)%float, 1.0%float).

(** Sample data for the examples. *)
Definition sample_reading (a b : float) : DustReading :=
  mkReading "MOTE-001" 0 a b 20 40 (0%float, 0%float).

(** A mote of intensity zero and draws for the examples: noise that
    leaves the raw PM2.5 at 10.125, the raw PM10 at 20.625 and the raw
    temperature at 20.375, halfway between two hundredths each, and the
    raw humidity at 115; and noise that pushes the raw PM2.5 and the raw
    humidity below zero. *)
Definition clean_mote : SmartDustMote :=
  mkMote "MOTE-009" (9, 9)%float 0.0 true [].
Definition halves : Draws := mkDraws 0 0.125 0.625 0.375 75.
Definition stormy : Draws := mkDraws 0 (-80) 0 0 (-75).



(** * Properties *)

(** ** The classifier *)

Example analyze_30_10 :
  let a := analyze_reading (sample_reading 30 10) in
  status a = UNSAFE /\ severity a = MODERATE.
Proof. vm_compute. split; reflexivity. Qed.

Example analyze_60_10 : severity (analyze_reading (sample_reading 60 10)) = CRITICAL.
Proof. reflexivity. Qed.

Example analyze_10_10 :
  let a := analyze_reading (sample_reading 10 10) in
  status a = SAFE /\ severity a = LOW.
Proof. vm_compute. split; reflexivity. Qed.

Example analyze_10_120 :
  let a := analyze_reading (sample_reading 10 120) in
  status a = UNSAFE /\ severity a = CRITICAL.
Proof. vm_compute. split; reflexivity. Qed.

(** C1.  [analyze_reading] answers UNSAFE exactly when [pm25 > 25.0] or
    [pm10 > 50.0]; otherwise it answers SAFE with severity LOW.  When PM10
    breaches, the severity is the PM10 tier ([> 100] CRITICAL, [> 70] HIGH,
    else MODERATE) whatever PM2.5 suggested; when only PM2.5 breaches it is
    the PM2.5 tier ([> 50] CRITICAL, [> 35] HIGH, else MODERATE).  With
    [pm25 = 60] and [pm10 = 60] the severity is MODERATE, not CRITICAL. *)
Theorem analyze_reading_status_severity :
  forall r : DustReading,
    let a := analyze_reading r in
    (status a = UNSAFE <->
       Py.gt (pm25 r) 25 = true \/ Py.gt (pm10 r) 50 = true) /\
    (Py.gt (pm25 r) 25 = false /\ Py.gt (pm10 r) 50 = false ->
       status a = SAFE /\ severity a = LOW) /\
    (Py.gt (pm10 r) 50 = true ->
       severity a =
         if Py.gt (pm10 r) 100 then CRITICAL
         else if Py.gt (pm10 r) 70 then HIGH else MODERATE) /\
    (Py.gt (pm25 r) 25 = true /\ Py.gt (pm10 r) 50 = false ->
       severity a =
         if Py.gt (pm25 r) 50 then CRITICAL
         else if Py.gt (pm25 r) 35 then HIGH else MODERATE) /\
    (Py.gt (pm25 r) 25 = true /\ Py.gt (pm10 r) 50 = true ->
       pm25_tier (pm25 r) = CRITICAL /\ pm10_tier (pm10 r) = MODERATE ->
       severity a = MODERATE) /\
    severity (analyze_reading (sample_reading 60 60)) = MODERATE.
Proof.
  intros r a. subst a.
  unfold analyze_reading, analyze_pm25, analyze_pm10, pm25_tier, pm10_tier,
    PM25_SAFE_THRESHOLD, PM10_SAFE_THRESHOLD. cbn [status severity fst snd].
  destruct (Py.gt (pm25 r) 25) eqn:H25, (Py.gt (pm10 r) 50) eqn:H10;
    cbn [fst snd].
  all: repeat split; intros; try reflexivity.
  all: intuition (try discriminate; try assumption).
Qed.

(** ** Bounded buffers *)

Section LastN.

Context {A : Type}.
Implicit Types (xs ys : list A) (n : nat).

Lemma last_n_length n xs : length (last_n n xs) = Nat.min n (length xs).
Proof. unfold last_n. rewrite length_drop. lia. Qed.

Lemma last_n_all n xs : (length xs <= n)%nat -> last_n n xs = xs.
Proof.
  intros H. unfold last_n.
  replace (length xs - n)%nat with 0%nat by lia. reflexivity.
Qed.

Lemma last_n_app_l n xs ys :
  last_n n (last_n n xs ++ ys) = last_n n (xs ++ ys).
Proof.
  unfold last_n. rewrite !length_app, length_drop.
  destruct (Nat.le_gt_cases (length xs) n) as [Hle | Hgt].
  - replace (length xs - n)%nat with 0%nat by lia.
    cbn [drop]. rewrite Nat.sub_0_r. reflexivity.
  - replace (length xs - (length xs - n) + length ys - n)%nat
      with (length ys) by lia.
    replace (length xs + length ys - n)%nat
      with (length xs - n + length ys)%nat by lia.
    rewrite <- drop_drop. rewrite (drop_app_le xs ys) by lia. reflexivity.
Qed.

Lemma slice_from_neg n xs :
  (0 < n)%nat -> Builtin.slice_from (- Z.of_nat n) xs = last_n n xs.
Proof.
  intros Hn. unfold Builtin.slice_from, last_n.
  destruct (Z.ltb_spec (- Z.of_nat n) 0) as [_ | H]; [ | lia ].
  f_equal. lia.
Qed.

Lemma deque_append_last_n n x xs :
  (length xs <= n)%nat ->
  Builtin.deque_append n x xs = last_n n (xs ++ [x]).
Proof.
  intros H. unfold Builtin.deque_append, last_n.
  rewrite length_app. cbn [length].
  destruct (Nat.ltb_spec n (length xs + 1)) as [Hlt | Hge].
  - replace (length xs + 1 - n)%nat with 1%nat by lia.
    destruct (xs ++ [x]); reflexivity.
  - replace (length xs + 1 - n)%nat with 0%nat by lia. reflexivity.
Qed.

(** Truncating with [xs = xs[-n:]] only when [len(xs) > n]. *)
Lemma truncate_last_n n xs :
  (0 < n)%nat ->
  (if (n <? length xs)%nat then Builtin.slice_from (- Z.of_nat n) xs else xs)
  = last_n n xs.
Proof.
  intros Hn. destruct (Nat.ltb_spec n (length xs)).
  - apply slice_from_neg, Hn.
  - symmetry. apply last_n_all. lia.
Qed.

End LastN.

Lemma add_reading_last_n p r :
  all_readings (add_reading p r) = last_n 1000 (all_readings p ++ [r]).
Proof.
  unfold add_reading. cbn [all_readings].
  apply (truncate_last_n 1000). lia.
Qed.

Lemma ingest_all_last_n rs : forall p h,
  all_readings p = last_n 1000 h ->
  all_readings (ingest_all p rs) = last_n 1000 (h ++ rs).
Proof.
  induction rs as [ | r rs IH ]; intros p h Hp; cbn.
  - rewrite app_nil_r. exact Hp.
  - fold (ingest_all (add_reading p r) rs).
    rewrite (IH _ (h ++ [r])).
    + rewrite <- app_assoc. reflexivity.
    + rewrite add_reading_last_n, Hp. apply last_n_app_l.
Qed.

Lemma sense_history m d now h :
  reading_history m = last_n 100 h ->
  reading_history (snd (sense m d now)) = last_n 100 (h ++ [fst (sense m d now)]).
Proof.
  intros Hm. cbn [sense snd fst reading_history]. unfold HISTORY_MAXLEN.
  rewrite deque_append_last_n.
  - rewrite Hm. apply last_n_app_l.
  - rewrite Hm, last_n_length. lia.
Qed.

Lemma sense_all_history inputs : forall m h,
  reading_history m = last_n 100 h ->
  reading_history (snd (sense_all m inputs))
  = last_n 100 (h ++ fst (sense_all m inputs)).
Proof.
  induction inputs as [ | [d now] rest IH ]; intros m h Hm.
  - cbn. rewrite app_nil_r. exact Hm.
  - cbn [sense_all].
    pose proof (sense_history m d now h Hm) as H1.
    destruct (sense m d now) as [r m1] eqn:Hs. cbn [fst snd] in H1.
    specialize (IH m1 (h ++ [r]) H1).
    destruct (sense_all m1 rest) as [rs m2]. cbn [fst snd] in *.
    rewrite IH, <- app_assoc. reflexivity.
Qed.

Lemma sense_all_length inputs : forall m,
  length (fst (sense_all m inputs)) = length inputs.
Proof.
  induction inputs as [ | [d now] rest IH ]; intros m; [ reflexivity | ].
  cbn [sense_all]. destruct (sense m d now) as [r m1].
  specialize (IH m1). destruct (sense_all m1 rest) as [rs m2].
  cbn [fst length] in *. lia.
Qed.

Lemma check_and_alert_alerts {W} (s : AlertSystem W) r a w :
  alerts (fst (check_and_alert s r a w)) =
  match status a with
  | UNSAFE => last_n 100 (alerts s ++ [make_alert r a])
  | SAFE => alerts s
  end.
Proof.
  unfold check_and_alert. destruct (status a); [ reflexivity | ].
  cbn [fst alerts]. unfold ALERTS_MAXLEN.
  apply (truncate_last_n 100). lia.
Qed.

Lemma run_alert_ops_alerts {W} (ops : list (AlertOp W)) : forall s w h,
  alerts s = last_n 100 h ->
  alerts (fst (run_alert_ops s w ops)) = last_n 100 (h ++ generated_alerts ops).
Proof.
  induction ops as [ | [cb | r a] rest IH ]; intros s w h Hs.
  - cbn. rewrite app_nil_r. exact Hs.
  - cbn [run_alert_ops generated_alerts]. apply IH. exact Hs.
  - cbn [run_alert_ops generated_alerts].
    pose proof (check_and_alert_alerts s r a w) as H1.
    destruct (check_and_alert s r a w) as [s1 n]. cbn [fst] in H1.
    destruct (status a).
    + apply IH. rewrite H1. exact Hs.
    + rewrite (IH s1 (n_world n) (h ++ [make_alert r a])).
      * rewrite <- app_assoc. reflexivity.
      * rewrite H1, Hs. apply last_n_app_l.
Qed.

(** C3.  Started empty, the history of a mote holds at most 100 readings,
    the global history at most 1000 and the alert log at most 100, and each
    holds exactly the most recent entries in arrival order: after 150 calls
    of [sense] the 100 most recent readings, after 1500 ingests the 1000
    most recent, after 150 UNSAFE evaluations the 100 most recent alerts. *)
Theorem bounded_buffers_fifo :
  (forall id loc base (inputs : list (Draws * Z)),
     exists m0, SmartDustMote_init id loc base = Ok m0 /\
       let rs := fst (sense_all m0 inputs) in
       let m := snd (sense_all m0 inputs) in
       (length (reading_history m) <= 100)%nat /\
       reading_history m = last_n 100 rs /\
       (length inputs = 150%nat ->
          length (reading_history m) = 100%nat /\
          reading_history m = drop 50 rs)) /\
  (forall rs : list DustReading,
     let p := ingest_all DataProcessor_init rs in
     (length (all_readings p) <= 1000)%nat /\
     all_readings p = last_n 1000 rs /\
     (length rs = 1500%nat ->
        length (all_readings p) = 1000%nat /\
        all_readings p = drop 500 rs)) /\
  (forall (W : Type) (w : W) (ops : list (AlertOp W)),
     let s := fst (run_alert_ops AlertSystem_init w ops) in
     (length (alerts s) <= 100)%nat /\
     alerts s = last_n 100 (generated_alerts ops) /\
     (length (generated_alerts ops) = 150%nat ->
        length (alerts s) = 100%nat /\
        alerts s = drop 50 (generated_alerts ops))).
Proof.
  split; [ | split ].
  - intros id loc base inputs. eexists. split; [ reflexivity | ].
    cbv zeta.
    match goal with |- context [sense_all ?m0 _] => set (m := m0) end.
    assert (H : reading_history (snd (sense_all m inputs))
                = last_n 100 (fst (sense_all m inputs))).
    { apply (sense_all_history inputs m []). reflexivity. }
    rewrite H, last_n_length.
    split; [ lia | split; [ reflexivity | ] ].
    intros Hlen. pose proof (sense_all_length inputs m) as Hl.
    unfold last_n. rewrite Hl, Hlen. split; reflexivity.
  - intros rs p.
    assert (H : all_readings p = last_n 1000 rs).
    { apply (ingest_all_last_n rs DataProcessor_init []). reflexivity. }
    rewrite H, last_n_length.
    split; [ lia | split; [ reflexivity | ] ].
    intros Hlen. unfold last_n. rewrite Hlen. split; reflexivity.
  - intros W w ops s.
    assert (H : alerts s = last_n 100 (generated_alerts ops)).
    { apply (run_alert_ops_alerts ops AlertSystem_init w []). reflexivity. }
    rewrite H, last_n_length.
    split; [ lia | split; [ reflexivity | ] ].
    intros Hlen. unfold last_n. rewrite Hlen. split; reflexivity.
Qed.

(** ** Alert notification *)

Lemma trigger_callbacks_spec {W} (cbs : list (Callback W)) :
  forall (i : nat) (alert : Alert) (w : W),
    let n := trigger_callbacks cbs i alert w in
    exists k : nat,
      (k <= length cbs)%nat /\
      n_called n = seq i k /\
      n_world n = world_after (take k cbs) alert w /\
      (forall j cb, (S j < k)%nat -> cbs !! j = Some cb ->
         snd (cb alert (world_after (take j cbs) alert w)) = None) /\
      match n_raised n with
      | None =>
          k = length cbs /\
          (forall j cb, (j < k)%nat -> cbs !! j = Some cb ->
             snd (cb alert (world_after (take j cbs) alert w)) = None)
      | Some e =>
          exists j cb, k = S j /\ cbs !! j = Some cb /\
            snd (cb alert (world_after (take j cbs) alert w)) = Some e
      end.
Proof.
  induction cbs as [ | cb rest IH ]; intros i alert w; cbv zeta.
  - exists 0%nat. cbn.
    refine (conj _ (conj _ (conj _ (conj _ (conj _ _))))); try reflexivity;
      try lia; intros; lia.
  - cbn [trigger_callbacks].
    destruct (cb alert w) as [w' [e | ]] eqn:Hcb.
    + exists 1%nat.
      cbn [n_called n_world n_raised length take world_after fold_left].
      rewrite Hcb. cbn [fst].
      refine (conj _ (conj _ (conj _ (conj _ _)))); try reflexivity; try lia.
      exists 0%nat, cb. cbn. rewrite Hcb. auto.
    + destruct (IH (S i) alert w') as (k & Hk & Hcalled & Hworld & Hbefore & Hend).
      exists (S k). cbn [n_called n_world n_raised length].
      assert (Hshift : forall j, world_after (take (S j) (cb :: rest)) alert w
                                 = world_after (take j rest) alert w').
      { intros j. cbn [take world_after fold_left]. rewrite Hcb. reflexivity. }
      refine (conj _ (conj _ (conj _ (conj _ _)))).
      * lia.
      * rewrite Hcalled. reflexivity.
      * rewrite Hworld, Hshift. reflexivity.
      * intros [ | j ] cb' Hj Hlook.
        -- cbn in Hlook. injection Hlook as <-. cbn. rewrite Hcb. reflexivity.
        -- rewrite Hshift. apply (Hbefore j cb'); [ lia | exact Hlook ].
      * destruct (n_raised (trigger_callbacks rest (S i) alert w')) as [e | ].
        -- destruct Hend as (j & cb' & -> & Hlook & Hraise).
           exists (S j), cb'. rewrite Hshift. auto.
        -- destruct Hend as [-> Hall]. split; [ reflexivity | ].
           intros [ | j ] cb' Hj Hlook.
           ++ cbn in Hlook. injection Hlook as <-. cbn. rewrite Hcb. reflexivity.
           ++ rewrite Hshift. apply (Hall j cb'); [ lia | exact Hlook ].
Qed.

(** C2, as the code has it.  On an UNSAFE evaluation the alert is appended
    to the bounded log whatever the callbacks do, and the callbacks are
    called in registration order with that alert, each from the state the
    previous one left, until one raises: that exception is not caught, the
    callback that raised is the last one called, and the callbacks
    registered after it are not called.  When no callback raises, every
    registered callback is called exactly once. *)
Theorem check_and_alert_notification :
  forall (W : Type) (s : AlertSystem W) (r : DustReading) (a : Analysis) (w : W),
    status a = UNSAFE ->
    let alert := make_alert r a in
    let cbs := alert_callbacks s in
    let s' := fst (check_and_alert s r a w) in
    let n := snd (check_and_alert s r a w) in
    alerts s' = last_n 100 (alerts s ++ [alert]) /\
    In alert (alerts s') /\
    alert_callbacks s' = cbs /\
    exists k : nat,
      (k <= length cbs)%nat /\
      n_called n = seq 0 k /\
      n_world n = world_after (take k cbs) alert w /\
      (forall j cb, (S j < k)%nat -> cbs !! j = Some cb ->
         snd (cb alert (world_after (take j cbs) alert w)) = None) /\
      match n_raised n with
      | None =>
          k = length cbs /\
          (forall j cb, (j < k)%nat -> cbs !! j = Some cb ->
             snd (cb alert (world_after (take j cbs) alert w)) = None)
      | Some e =>
          exists j cb, k = S j /\ cbs !! j = Some cb /\
            snd (cb alert (world_after (take j cbs) alert w)) = Some e
      end.
Proof.
  intros W s r a w Hunsafe alert cbs s' n.
  assert (Hlog : alerts s' = last_n 100 (alerts s ++ [alert])).
  { subst s'. rewrite check_and_alert_alerts, Hunsafe. reflexivity. }
  split; [ exact Hlog | split; [ | split ] ].
  - rewrite Hlog. unfold last_n. rewrite length_app. cbn [length].
    apply list_elem_of_In, list_elem_of_lookup.
    exists (length (alerts s) + 1 - (length (alerts s) + 1 - 100) - 1)%nat.
    rewrite lookup_drop, lookup_app_r by lia.
    replace (_ - length (alerts s))%nat with 0%nat by lia. reflexivity.
  - subst s'. unfold check_and_alert. rewrite Hunsafe. reflexivity.
  - subst n. unfold check_and_alert. rewrite Hunsafe. cbn [snd].
    apply (trigger_callbacks_spec cbs 0 alert w).
Qed.

Lemma check_and_alert_notification_witness :
  let r := sample_reading 60 10 in
  let a := analyze_reading r in
  status a = UNSAFE /\
  alerts (fst (check_and_alert two_observers r a [])) = [make_alert r a].
Proof.
  split; [ reflexivity | ].
  exact (proj1 (check_and_alert_notification _ two_observers
                  (sample_reading 60 10)
                  (analyze_reading (sample_reading 60 10)) [] eq_refl)).
Defined.

(** C2, as stated, fails: with two observers registered, the first of
    which raises, the alert is in the log but the second observer is never
    called and the exception leaves [check_and_alert]. *)
Lemma callback_failure_not_isolated :
  let r := sample_reading 60 10 in
  let a := analyze_reading r in
  let s' := fst (check_and_alert two_observers r a []) in
  let n := snd (check_and_alert two_observers r a []) in
  status a = UNSAFE /\
  length (alert_callbacks two_observers) = 2%nat /\
  alerts s' = [make_alert r a] /\
  n_called n = [0%nat] /\
  ~ In 1%nat (n_called n) /\
  n_world n = ["first"] /\
  n_raised n = Some (UserError "first").
Proof.
  cbv zeta. repeat (split; [ reflexivity | ]).
  split; [ | split; reflexivity ].
  cbn. intros [H | []]. discriminate H.
Qed.

(** ** Statistics *)

(** On a non-empty history [get_statistics] returns the eight keys,
    computed over the 100 most recent readings. *)
Lemma get_statistics_nonempty (p : DataProcessor) :
  all_readings p <> [] ->
  get_statistics p =
  Ok (Some {| total_readings := length (all_readings p);
              recent_readings := length (recent_window p);
              avg_pm25 := Builtin.round2 (mean (map pm25 (recent_window p)));
              avg_pm10 := Builtin.round2 (mean (map pm10 (recent_window p)));
              max_pm25 := Builtin.round2 (list_max (map pm25 (recent_window p)));
              max_pm10 := Builtin.round2 (list_max (map pm10 (recent_window p)));
              min_pm25 := Builtin.round2 (list_min (map pm25 (recent_window p)));
              min_pm10 := Builtin.round2 (list_min (map pm10 (recent_window p))) |}).
Proof.
  intros Hne. unfold get_statistics, recent_window.
  replace (Builtin.slice_from (-100) (all_readings p))
    with (last_n 100 (all_readings p))
    by (symmetry; apply (slice_from_neg 100); lia).
  destruct (all_readings p) as [ | r0 rs ] eqn:Hall; [ congruence | ].
  rewrite <- Hall. clear Hne.
  assert (Hw : last_n 100 (all_readings p) <> []).
  { intros Hnil. apply (f_equal length) in Hnil.
    rewrite last_n_length, Hall in Hnil. cbn in Hnil. lia. }
  destruct (last_n 100 (all_readings p)) as [ | w0 ws ]; [ congruence | ].
  reflexivity.
Qed.

(** C8.  On an empty global history [get_statistics] returns the empty
    dictionary: it does not raise (no division by zero is attempted) and
    returns no number at all, so no NaN. *)
Theorem get_statistics_empty :
  forall p : DataProcessor,
    all_readings p = [] ->
    get_statistics p = Ok None /\
    (forall e, get_statistics p <> Raise e) /\
    get_statistics DataProcessor_init = Ok None.
Proof.
  intros p Hp. unfold get_statistics. rewrite Hp.
  split; [ reflexivity | split; [ discriminate | reflexivity ] ].
Qed.

Lemma get_statistics_empty_witness :
  all_readings DataProcessor_init = [] /\
  get_statistics DataProcessor_init = Ok None.
Proof.
  split; [ reflexivity | ].
  exact (proj1 (get_statistics_empty DataProcessor_init eq_refl)).
Defined.

(** The count [get_statistics] reports as [total_readings] is the length
    of the truncated history: the number of readings ingested, capped at
    1000. *)
Lemma total_readings_capped (rs : list DustReading) :
  rs <> [] ->
  exists st, get_statistics (ingest_all DataProcessor_init rs) = Ok (Some st) /\
             total_readings st = Nat.min 1000 (length rs).
Proof.
  intros Hne.
  assert (Hall : all_readings (ingest_all DataProcessor_init rs) = last_n 1000 rs).
  { apply (ingest_all_last_n rs DataProcessor_init []). reflexivity. }
  eexists. split.
  - apply get_statistics_nonempty. rewrite Hall. intros Hnil.
    apply (f_equal length) in Hnil. rewrite last_n_length in Hnil.
    destruct rs; [ congruence | cbn in Hnil; lia ].
  - cbn [total_readings]. rewrite Hall. apply last_n_length.
Qed.

(** C4 at the failing input.  After 1500 readings were ingested,
    [get_statistics] reports [total_readings = 1000], not 1500. *)
Theorem total_readings_after_1500 :
  let rs := repeat (sample_reading 10 10) 1500 in
  length rs = 1500%nat /\
  exists st, get_statistics (ingest_all DataProcessor_init rs) = Ok (Some st) /\
             total_readings st = 1000%nat /\
             total_readings st <> 1500%nat.
Proof.
  cbv zeta. split; [ apply repeat_length | ].
  destruct (total_readings_capped (repeat (sample_reading 10 10) 1500))
    as (st & Hst & Htotal); [ discriminate | ].
  exists st. rewrite repeat_length in Htotal.
  split; [ exact Hst | ]. rewrite Htotal. split; [ reflexivity | discriminate ].
Qed.

(** ** Construction of a mote *)

(** C5, as the code has it.  [SmartDustMote.__init__] never fails: it
    stores the intensity it is given, whatever its value, starts active
    with an empty history, and the stored intensity is what [sense] scales
    the PM2.5 and PM10 baselines with. *)
Theorem SmartDustMote_init_accepts_any_intensity :
  forall (id : string) (loc : float * float) (base : float),
    exists m : SmartDustMote,
      SmartDustMote_init id loc base = Ok m /\
      base_pollution m = base /\
      m_mote_id m = id /\ m_location m = loc /\
      is_active m = true /\ reading_history m = [] /\
      forall (d : Draws) (now : Z),
        let r := fst (sense m d now) in
        pm25 r = Builtin.round2
                   (Builtin.max 0 ((10.0 + base * 40.0) * (1.0 + 0.3 * g_time d)
                                   + g_pm25 d)%float) /\
        pm10 r = Builtin.round2
                   (Builtin.max 0 ((20.0 + base * 60.0) * (1.0 + 0.3 * g_time d)
                                   + g_pm10 d)%float).
Proof.
  intros id loc base. eexists. split; [ reflexivity | ].
  do 5 (split; [ reflexivity | ]).
  intros d now. split; reflexivity.
Qed.

(** C5, as stated, fails: the intensity [2.0] is outside [[0, 1]], the
    constructor accepts it, and without any noise the mote then reports
    PM2.5 = 90 and PM10 = 140, beyond the baselines 50 and 80 of the
    largest intensity in range. *)
Lemma SmartDustMote_init_out_of_range :
  let base := 2.0%float in
  (Py.lt base 0 || Py.gt base 1 = true) /\
  (forall e, SmartDustMote_init "MOTE-001" (0, 0)%float base <> Raise e) /\
  exists m, SmartDustMote_init "MOTE-001" (0, 0)%float base = Ok m /\
            base_pollution m = base /\
            pm25 (fst (sense m quiet 0)) = 90.0%float /\
            pm10 (fst (sense m quiet 0)) = 140.0%float.
Proof.
  cbv zeta. split; [ reflexivity | split; [ discriminate | ] ].
  eexists. split; [ reflexivity | ].
  split; [ reflexivity | split; vm_compute; reflexivity ].
Qed.

(** ** Recent alerts *)

(** X7.  For a positive count, [get_recent_alerts] returns the [n] most
    recent alerts in arrival order: all of them when fewer than [n] exist,
    none when the log is empty. *)
Lemma get_recent_alerts_positive {W} (s : AlertSystem W) (n : nat) :
  (0 < n)%nat ->
  get_recent_alerts s (Z.of_nat n) = last_n n (alerts s) /\
  ((length (alerts s) <= n)%nat -> get_recent_alerts s (Z.of_nat n) = alerts s) /\
  (alerts s = [] -> get_recent_alerts s (Z.of_nat n) = []).
Proof.
  intros Hn.
  assert (H : get_recent_alerts s (Z.of_nat n) = last_n n (alerts s)).
  { unfold get_recent_alerts. destruct (alerts s) as [ | a0 rest ] eqn:Ha.
    - reflexivity.
    - apply slice_from_neg, Hn. }
  split; [ exact H | split ].
  - intros Hle. rewrite H. apply last_n_all, Hle.
  - intros Hnil. rewrite H, Hnil. reflexivity.
Qed.

(** C6 at the failing input.  With [count = 0] the slice is
    [self.alerts[-0:]], that is [self.alerts[0:]]: [get_recent_alerts]
    returns the whole log instead of the empty list. *)
Theorem get_recent_alerts_zero :
  (forall (W : Type) (s : AlertSystem W), get_recent_alerts s 0 = alerts s) /\
  let r1 := sample_reading 60 10 in
  let r2 := sample_reading 10 120 in
  let a1 := make_alert r1 (analyze_reading r1) in
  let a2 := make_alert r2 (analyze_reading r2) in
  let s : AlertSystem unit := {| alerts := [a1; a2]; alert_callbacks := [] |} in
  get_recent_alerts s 0 = [a1; a2] /\
  get_recent_alerts s 0 <> last_n 0 (alerts s).
Proof.
  split.
  - intros W s. unfold get_recent_alerts.
    destruct (alerts s); reflexivity.
  - cbv zeta. split; [ reflexivity | discriminate ].
Qed.

(** ** The pollution map *)

(** [get_average_pollution] never raises: the division is guarded by the
    test on the empty history. *)
Lemma get_average_pollution_ok (m : SmartDustMote) :
  get_average_pollution m = Ok (average_pollution m).
Proof.
  unfold get_average_pollution, average_pollution, mean.
  destruct (reading_history m) as [ | r rs ]; [ reflexivity | ].
  rewrite !length_map. reflexivity.
Qed.

(** The entry the loop writes for an active mote. *)
Lemma pollution_map_loop_spec (motes : list SmartDustMote) :
  forall acc : gmap string MapEntry,
    NoDup (map m_mote_id motes) ->
    exists pm,
      pollution_map_loop motes acc = Ok pm /\
      (forall m, In m motes -> is_active m = true ->
         pm !! m_mote_id m = Some (map_entry m (average_pollution m))) /\
      (forall k, ~ In k (map m_mote_id (active_motes motes)) ->
         pm !! k = acc !! k).
Proof.
  induction motes as [ | m rest IH ]; intros acc Hnd.
  - exists acc. cbn. repeat split; intros; tauto.
  - cbn [map] in Hnd. apply NoDup_cons in Hnd as [Hfresh Hnd].
    assert (Hfresh' : ~ In (m_mote_id m) (map m_mote_id (active_motes rest))).
    { intros Hin. apply Hfresh, list_elem_of_In.
      apply in_map_iff in Hin as (m' & Hid & Hm').
      apply filter_In in Hm' as [Hm' _].
      rewrite <- Hid. apply in_map, Hm'. }
    cbn [pollution_map_loop active_motes List.filter].
    destruct (is_active m) eqn:Hact.
    + rewrite get_average_pollution_ok. cbn [mbind result_bind].
      destruct (IH (<[m_mote_id m := map_entry m (average_pollution m)]> acc) Hnd)
        as (pm & Hpm & Hin & Hout).
      exists pm. split; [ exact Hpm | split ].
      * intros m' [<- | Hm'] Hact'.
        -- rewrite Hout by exact Hfresh'. apply lookup_insert_eq.
        -- apply Hin; assumption.
      * intros k Hk. cbn [map] in Hk.
        rewrite Hout by (intros Hin'; apply Hk; right; exact Hin').
        apply lookup_insert_ne. intros Heq. apply Hk. left. exact Heq.
    + destruct (IH acc Hnd) as (pm & Hpm & Hin & Hout).
      exists pm. split; [ exact Hpm | split ].
      * intros m' [<- | Hm'] Hact'; [ congruence | ].
        apply Hin; assumption.
      * exact Hout.
Qed.


(** ** Rounding to two decimals *)

Lemma nearest_integer_round (n d : Z) :
  0 < d -> nearest_integer n d (Builtin.round_half_even_div n d).
Proof.
  intros Hd. unfold nearest_integer, Builtin.round_half_even_div.
  pose proof (Z.div_mod n d ltac:(lia)) as Hdm.
  pose proof (Z.mod_pos_bound n d Hd) as Hr.
  set (q := n / d) in *. set (r := n mod d) in *.
  destruct (Z.compare_spec (2 * r) d) as [Heq | Hlt | Hgt].
  - destruct (Z.even q) eqn:Hev.
    + replace (n - q * d) with r by lia. rewrite Z.abs_eq by lia.
      split; [ lia | intros _; exact Hev ].
    + replace (n - (q + 1) * d) with (r - d) by lia.
      rewrite Z.abs_neq by lia. split; [ lia | ]. intros _.
      rewrite Z.even_add, Hev. reflexivity.
  - replace (n - q * d) with r by lia. rewrite Z.abs_eq by lia.
    split; lia.
  - replace (n - (q + 1) * d) with (r - d) by lia.
    rewrite Z.abs_neq by lia. split; lia.
Qed.

Lemma nearest_integer_unique (n d k1 k2 : Z) :
  0 < d -> nearest_integer n d k1 -> nearest_integer n d k2 -> k1 = k2.
Proof.
  intros Hd [H1 E1] [H2 E2].
  assert (Hclose : k1 = k2 \/ k1 = k2 + 1 \/ k2 = k1 + 1) by nia.
  destruct Hclose as [Heq | [Hs | Hs]]; [ exact Heq | exfalso | exfalso ].
  - assert (T1 : 2 * Z.abs (n - k1 * d) = d) by nia.
    assert (T2 : 2 * Z.abs (n - k2 * d) = d) by nia.
    specialize (E1 T1). specialize (E2 T2).
    rewrite Hs, Z.even_add, E2 in E1. discriminate E1.
  - assert (T1 : 2 * Z.abs (n - k1 * d) = d) by nia.
    assert (T2 : 2 * Z.abs (n - k2 * d) = d) by nia.
    specialize (E1 T1). specialize (E2 T2).
    rewrite Hs, Z.even_add, E1 in E2. discriminate E2.
Qed.

Lemma hundredths_nearest (m : positive) (e : Z) :
  nearest_integer (Z.pos m * 100 * 2 ^ Z.max e 0) (2 ^ Z.max (- e) 0)
    (Builtin.hundredths m e).
Proof.
  unfold Builtin.hundredths. destruct (Z.leb_spec 0 e) as [Hge | Hlt].
  - rewrite (Z.max_l e 0), (Z.max_r (- e) 0) by lia.
    change (2 ^ 0) with 1. unfold nearest_integer.
    replace (Z.pos m * 100 * 2 ^ e - Z.pos m * 2 ^ e * 100 * 1) with 0 by lia.
    cbn. split; [ lia | discriminate ].
  - rewrite (Z.max_r e 0), (Z.max_l (- e) 0) by lia.
    change (2 ^ 0) with 1. rewrite Z.mul_1_r.
    apply nearest_integer_round. apply Z.pow_pos_nonneg; lia.
Qed.

Lemma round2_rounds (x : float) : rounded_to_2_decimals x (Builtin.round2 x).
Proof.
  unfold rounded_to_2_decimals, Builtin.round2.
  destruct (Prim2SF x) as [ s | s | | s m e ] eqn:Hx;
    cbn [Builtin.round2_SF]; try (rewrite <- Hx; apply SF2Prim_Prim2SF).
  exists (Builtin.hundredths m e). split; [ apply hundredths_nearest | ].
  destruct (Builtin.hundredths m e); reflexivity.
Qed.

Lemma rounded_to_2_decimals_unique (x y y' : float) :
  rounded_to_2_decimals x y -> rounded_to_2_decimals x y' -> y = y'.
Proof.
  unfold rounded_to_2_decimals.
  destruct (Prim2SF x) as [ s | s | | s m e ]; try congruence.
  intros (k & Hk & ->) (k' & Hk' & ->).
  assert (Hd : 0 < 2 ^ Z.max (- e) 0) by (apply Z.pow_pos_nonneg; lia).
  rewrite (nearest_integer_unique _ _ k k' Hd Hk Hk'). reflexivity.
Qed.

Lemma round2_zero : Builtin.round2 0 = 0%float.
Proof. vm_compute. reflexivity. Qed.

Lemma round2_hundred : Builtin.round2 100 = 100%float.
Proof. vm_compute. reflexivity. Qed.

(** ** The pollution map for any list of motes *)











Example pollution_map_two_motes :
  exists e, get_pollution_map [mote_a; mote_b] = Ok {[ "MOTE-001" := e ]} /\
            e_pm25 e = 30%float /\ e_pm10 e = 10%float /\ e_status e = UNSAFE.
Proof.
  eexists. split; [ reflexivity | ]. vm_compute. auto.
Qed.

(** ** Floating-point bounds *)

Lemma nonneg_SF_leb x : nonneg_SF x <-> SFleb (S754_zero false) x = true.
Proof.
  destruct x as [ s | s | | s m e ]; cbn; try destruct s; cbn; intuition congruence.
Qed.

Lemma shr_1_nonneg mrs : 0 <= shr_m mrs -> 0 <= shr_m (shr_1 mrs).
Proof.
  destruct mrs as [m r s]. cbn [shr_m]. intros H.
  destruct m as [ | [ p | p | ] | p ]; cbn; lia.
Qed.

Lemma iter_pos_shr_1_nonneg p : forall mrs,
  0 <= shr_m mrs -> 0 <= shr_m (SpecFloat.iter_pos shr_1 p mrs).
Proof.
  induction p as [ p IH | p IH | ]; intros mrs H; cbn [iter_pos].
  - apply IH, IH, shr_1_nonneg, H.
  - apply IH, IH, H.
  - apply shr_1_nonneg, H.
Qed.

Lemma shr_fexp_nonneg m e l :
  0 <= m -> 0 <= shr_m (fst (shr_fexp prec emax m e l)).
Proof.
  intros H. unfold shr_fexp, shr.
  assert (H0 : 0 <= shr_m (shr_record_of_loc m l)).
  { destruct l as [ | [ | | ] ]; exact H. }
  destruct (fexp prec emax (Zdigits2 m + e) - e); cbn [fst]; try exact H0.
  apply iter_pos_shr_1_nonneg, H0.
Qed.

Lemma round_nearest_even_nonneg m l : 0 <= m -> 0 <= round_nearest_even m l.
Proof.
  intros H. destruct l as [ | [ | | ] ]; cbn; try lia.
  destruct (Z.even m); lia.
Qed.

Lemma binary_round_aux_nonneg m e l :
  0 <= m -> nonneg_SF (binary_round_aux prec emax false m e l).
Proof.
  intros H. unfold binary_round_aux.
  pose proof (shr_fexp_nonneg m e l H) as H1.
  destruct (shr_fexp prec emax m e l) as [mrs' e']. cbn [fst] in H1.
  pose proof (shr_fexp_nonneg _ e' loc_Exact
                (round_nearest_even_nonneg _ (loc_of_shr_record mrs') H1)) as H2.
  destruct (shr_fexp prec emax _ e' loc_Exact) as [mrs'' e'']. cbn [fst] in H2.
  destruct (shr_m mrs'') as [ | p | p ]; cbn; try lia; auto.
  destruct (e'' <=? emax - prec); cbn; reflexivity.
Qed.

Lemma binary_round_nonneg m e : nonneg_SF (binary_round prec emax false m e).
Proof.
  unfold binary_round.
  destruct (shl_align m e (fexp prec emax (Z.pos (digits2_pos m) + e))) as [mz ez].
  apply binary_round_aux_nonneg. lia.
Qed.

Lemma binary_normalize_nonneg z e :
  0 <= z -> nonneg_SF (binary_normalize prec emax z e false).
Proof.
  intros H. destruct z as [ | p | p ]; cbn [binary_normalize]; try lia.
  - exact I.
  - apply binary_round_nonneg.
Qed.

Lemma SFldexp_nonneg x e : nonneg_SF x -> nonneg_SF (SFldexp prec emax x e).
Proof.
  destruct x as [ s | s | | s m ex ]; cbn [SFldexp nonneg_SF]; auto.
  intros ->. apply binary_round_nonneg.
Qed.

Lemma SFdiv_nonneg k d :
  nonneg_SF (SFdiv prec emax (S754_finite false k 0) (S754_finite false d 0)).
Proof.
  cbn [SFdiv xorb]. unfold SFdiv_core_binary.
  set (e' := Z.min _ _). set (m' := match 0 - 0 - e' with Z.pos _ => _ | _ => _ end).
  assert (Hm : 0 <= m').
  { subst m'. destruct (0 - 0 - e'); try lia. apply Z.shiftl_nonneg. lia. }
  pose proof (Z.div_pos m' (Z.pos d) Hm ltac:(lia)) as Hq.
  unfold Z.div in Hq. destruct (Z.div_eucl m' (Z.pos d)) as [q r]. cbn [fst] in Hq.
  apply binary_round_aux_nonneg, Hq.
Qed.

Lemma round2_SF_nonneg x : nonneg_SF x -> nonneg_SF (Builtin.round2_SF x).
Proof.
  destruct x as [ s | s | | s m e ]; cbn [Builtin.round2_SF nonneg_SF]; auto.
  intros ->. destruct (Builtin.hundredths m e); try exact I.
  apply SFdiv_nonneg.
Qed.

Lemma SF2Prim_nonneg x : nonneg_SF x -> nonneg_SF (Prim2SF (SF2Prim x)).
Proof.
  destruct x as [ [ | ] | [ | ] | | s m e ]; cbn [nonneg_SF]; try discriminate;
    try contradiction; try (intros _; vm_compute; exact I); try (intros _; reflexivity).
  intros ->. cbn [SF2Prim].
  rewrite Z_ldexp_spec, of_uint63_spec.
  apply SFldexp_nonneg, binary_normalize_nonneg.
  apply Uint63.to_Z_bounded.
Qed.

Lemma round2_nonneg (x : float) :
  Py.ge x 0 = true -> Py.ge (Builtin.round2 x) 0 = true.
Proof.
  unfold Py.ge. rewrite !leb_spec.
  change (Prim2SF 0) with (S754_zero false).
  rewrite <- !nonneg_SF_leb. intros H. unfold Builtin.round2.
  apply SF2Prim_nonneg, round2_SF_nonneg, H.
Qed.

Lemma max_zero_nonneg (x : float) : Py.ge (Builtin.max 0 x) 0 = true.
Proof.
  unfold Builtin.max, Py.gt, Py.ge.
  destruct (PrimFloat.ltb 0 x) eqn:H; [ | reflexivity ].
  rewrite ltb_spec in H. rewrite leb_spec.
  unfold SFltb in H. unfold SFleb.
  destruct (SFcompare (Prim2SF 0) (Prim2SF x)) as [ [ | | ] | ]; congruence.
Qed.

Lemma digits2_pos_bound m : Z.pos m < 2 ^ Z.pos (digits2_pos m).
Proof.
  induction m as [ m IH | m IH | ]; cbn [digits2_pos]; [ | | reflexivity ].
  all: rewrite Pos2Z.inj_succ, Z.pow_succ_r by lia; lia.
Qed.

Lemma round_half_even_div_le n d c :
  0 < d -> n <= c * d -> Builtin.round_half_even_div n d <= c.
Proof.
  intros Hd Hn. unfold Builtin.round_half_even_div.
  pose proof (Z.div_mod n d ltac:(lia)) as Hdm.
  pose proof (Z.mod_pos_bound n d Hd) as Hr.
  destruct (Z.le_gt_cases c (n / d)) as [Hge | Hlt].
  - assert (n / d = c) by nia. assert (n mod d = 0) by nia.
    replace (2 * (n mod d) ?= d) with Lt; [ lia | ].
    symmetry. apply Z.compare_lt_iff. lia.
  - destruct (2 * (n mod d) ?= d); try destruct (Z.even (n / d)); lia.
Qed.

Lemma round_half_even_div_nonneg n d :
  0 < d -> 0 <= n -> 0 <= Builtin.round_half_even_div n d.
Proof.
  intros Hd Hn. unfold Builtin.round_half_even_div.
  pose proof (Z.div_pos n d Hn Hd).
  destruct (2 * (n mod d) ?= d); try destruct (Z.even (n / d)); lia.
Qed.

Lemma Prim2SF_100 : Prim2SF 100 = SF100.
Proof. vm_compute. reflexivity. Qed.

Lemma hundredths_le_100 m e :
  valid_binary (S754_finite false m e) = true ->
  SFleb (S754_finite false m e) SF100 = true ->
  Builtin.hundredths m e <= 10000.
Proof.
  intros Hvalid Hle. cbn [SpecFloat.valid_binary] in Hvalid.
  apply andb_prop in Hvalid as [Hcanon _].
  unfold canonical_mantissa, fexp in Hcanon. apply Z.eqb_eq in Hcanon.
  pose proof (digits2_pos_bound m) as Hm.
  assert (Hd : Z.pos (digits2_pos m) <= 53) by (unfold prec in Hcanon; lia).
  assert (Hm53 : Z.pos m < 2 ^ 53).
  { eapply Z.lt_le_trans; [ exact Hm | ]. apply Z.pow_le_mono_r; lia. }
  unfold SFleb, SF100 in Hle. cbn [SFcompare] in Hle.
  assert (He : e < -46 \/ e = -46 /\ Z.pos m <= 7036874417766400).
  { clear Hcanon Hm Hd Hm53.
    destruct (Z.compare_spec e (-46)) as [Heq | Hlt | Hgt].
    - right. split; [ exact Heq | ].
      destruct (PosDef.Pos.compare_cont Eq m 7036874417766400) eqn:Hc.
      + apply Pos.compare_eq in Hc. rewrite Hc. apply Z.le_refl.
      + apply Pos.compare_lt_iff in Hc. apply Z.lt_le_incl. exact Hc.
      + discriminate Hle.
    - left. exact Hlt.
    - discriminate Hle. }
  unfold Builtin.hundredths.
  destruct (Z.leb_spec 0 e) as [H0 | H0]; [ lia | ].
  apply round_half_even_div_le; [ apply Z.pow_pos_nonneg; lia | ].
  destruct He as [He | [-> Hle46]].
  - assert (Hpow : 2 ^ 47 <= 2 ^ (- e)) by (apply Z.pow_le_mono_r; lia).
    change (2 ^ 47) with 140737488355328 in Hpow.
    change (2 ^ 53) with 9007199254740992 in Hm53.
    lia.
  - change (2 ^ (- (-46))) with 70368744177664. lia.
Qed.

Lemma hundredths_ok_upto_spec n :
  hundredths_ok_upto n = true ->
  forall k, (Pos.to_nat k <= n)%nat -> hundredth_ok k = true.
Proof.
  induction n as [ | n IH ]; intros H k Hk; [ lia | ].
  cbn [hundredths_ok_upto] in H. apply andb_prop in H as [Hn Hrest].
  destruct (Nat.eq_dec (Pos.to_nat k) (S n)) as [Heq | Hne].
  - rewrite <- Heq, Pos2Nat.id in Hn. exact Hn.
  - apply IH; [ exact Hrest | lia ].
Qed.

Lemma hundredths_ok_10000 : hundredths_ok_upto (100 * 100) = true.
Proof. vm_compute. reflexivity. Qed.

Lemma round2_le_100 (y : float) :
  Py.ge y 0 = true -> Py.le y 100 = true ->
  Py.le (Builtin.round2 y) 100 = true.
Proof.
  unfold Py.ge, Py.le, Builtin.round2. rewrite !leb_spec, Prim2SF_100.
  change (Prim2SF 0) with (S754_zero false).
  pose proof (Prim2SF_valid y) as Hvalid.
  destruct (Prim2SF y) as [ s | s | | s m e ]; cbn [Builtin.round2_SF].
  - intros _ _. rewrite Prim2SF_SF2Prim by reflexivity. reflexivity.
  - destruct s; discriminate.
  - discriminate.
  - intros Hge Hle. apply nonneg_SF_leb in Hge. cbn [nonneg_SF] in Hge. subst s.
    pose proof (hundredths_le_100 m e Hvalid Hle) as Hk.
    destruct (Builtin.hundredths m e) as [ | k | k ].
    + rewrite Prim2SF_SF2Prim by reflexivity. reflexivity.
    + pose proof (hundredths_ok_upto_spec _ hundredths_ok_10000 k) as Hok.
      unfold hundredth_ok, hundredth_SF in Hok.
      apply andb_prop in Hok as [Hv Hl]; [ | lia ].
      rewrite Prim2SF_SF2Prim by exact Hv. exact Hl.
    + rewrite Prim2SF_SF2Prim by reflexivity. reflexivity.
Qed.

Lemma min_max_bounds (h : float) :
  let y := Builtin.max 0 (Builtin.min 100 h) in
  Py.ge y 0 = true /\ Py.le y 100 = true.
Proof.
  cbv zeta. split; [ apply max_zero_nonneg | ].
  unfold Builtin.max, Builtin.min, Py.gt, Py.lt, Py.le.
  destruct (PrimFloat.ltb h 100) eqn:Hlt.
  - destruct (PrimFloat.ltb 0 h); [ | vm_compute; reflexivity ].
    rewrite ltb_spec in Hlt. rewrite leb_spec.
    unfold SFltb in Hlt. unfold SFleb.
    destruct (SFcompare (Prim2SF h) (Prim2SF 100)) as [ [ | | ] | ]; congruence.
  - destruct (PrimFloat.ltb 0 100); vm_compute; reflexivity.
Qed.

Lemma Prim2SF_nan (x : float) : is_nan x = true -> Prim2SF x = S754_nan.
Proof. intros H. unfold Prim2SF. rewrite H. reflexivity. Qed.

Lemma ge_zero_not_nan (x : float) : Py.ge x 0 = true -> is_nan x = false.
Proof.
  unfold Py.ge. rewrite leb_spec. intros H.
  destruct (is_nan x) eqn:Hnan; [ | reflexivity ].
  rewrite (Prim2SF_nan x Hnan) in H.
  destruct (Prim2SF 0); discriminate H.
Qed.

(** ** The reading generator *)

(** X1.  Whatever the intensity of the mote and whatever the five random
    draws are (NaN and infinities included), the reading [sense] returns
    has PM2.5 >= 0, PM10 >= 0 and humidity within [[0, 100]], and none of
    these three values is NaN. *)
Theorem sense_reading_in_range :
  forall (m : SmartDustMote) (d : Draws) (now : Z),
    let r := fst (sense m d now) in
    Py.ge (pm25 r) 0 = true /\ Py.ge (pm10 r) 0 = true /\
    Py.ge (humidity r) 0 = true /\ Py.le (humidity r) 100 = true /\
    is_nan (pm25 r) = false /\ is_nan (pm10 r) = false /\
    is_nan (humidity r) = false.
Proof.
  intros m d now r. subst r. cbn [sense fst pm25 pm10 humidity].
  assert (H25 : Py.ge (Builtin.round2 (sense_pm25 m d)) 0 = true)
    by apply round2_nonneg, max_zero_nonneg.
  assert (H10 : Py.ge (Builtin.round2 (sense_pm10 m d)) 0 = true)
    by apply round2_nonneg, max_zero_nonneg.
  destruct (min_max_bounds (40.0 + g_hum d)%float) as [Hlo Hhi].
  assert (Hh : Py.ge (Builtin.round2 (sense_humidity d)) 0 = true)
    by apply round2_nonneg, Hlo.
  repeat split; try assumption; try (apply ge_zero_not_nan; assumption).
  apply round2_le_100; assumption.
Qed.

(** X2.  A call of [sense] on a mote whose history is within its capacity
    leaves the identifier, location, intensity and active flag of the mote
    unchanged, stamps the reading with the mote's identifier and location
    and the current time, and puts the reading at the newest end of the
    history: the history grows by one up to 100 entries, and every entry
    other than the new reading was there before. *)
Theorem sense_updates_history :
  forall (m : SmartDustMote) (d : Draws) (now : Z),
    (length (reading_history m) <= 100)%nat ->
    let r := fst (sense m d now) in
    let m' := snd (sense m d now) in
    m_mote_id m' = m_mote_id m /\ m_location m' = m_location m /\
    base_pollution m' = base_pollution m /\ is_active m' = is_active m /\
    mote_id r = m_mote_id m /\ location r = m_location m /\ timestamp r = now /\
    last (reading_history m') = Some r /\
    length (reading_history m') = Nat.min 100 (length (reading_history m) + 1) /\
    (forall x, In x (reading_history m') -> x = r \/ In x (reading_history m)).
Proof.
  intros m d now Hlen r m'.
  assert (Hh : reading_history m' = last_n 100 (reading_history m ++ [r])).
  { subst m' r. cbn [sense snd fst reading_history]. unfold HISTORY_MAXLEN.
    apply deque_append_last_n, Hlen. }
  do 7 (split; [ reflexivity | ]).
  rewrite Hh. unfold last_n. rewrite length_app. cbn [length].
  rewrite drop_app_le by lia.
  split; [ apply last_snoc | split ].
  - rewrite length_app, length_drop. cbn [length]. lia.
  - intros x Hx. apply in_app_or in Hx as [Hx | [<- | []]].
    + right. apply list_elem_of_In. apply list_elem_of_In in Hx.
      apply (subseteq_drop _ _ _ Hx).
    + left. reflexivity.
Qed.

Lemma sense_updates_history_witness :
  (length (reading_history mote_a) <= 100)%nat /\
  last (reading_history (snd (sense mote_a quiet 7))) = Some (fst (sense mote_a quiet 7)).
Proof.
  assert (H : (length (reading_history mote_a) <= 100)%nat) by (cbn; lia).
  split; [ exact H | ].
  destruct (sense_updates_history mote_a quiet 7 H)
    as (_ & _ & _ & _ & _ & _ & _ & Hlast & _).
  exact Hlast.
Defined.

(** ** The classifier and the mote's own test *)

(** X3.  [SmartDustMote.is_pollution_unsafe] and
    [DataProcessor.analyze_reading] agree on every reading: the first
    answers [True] exactly when the second answers UNSAFE, and the
    severity is LOW exactly when the status is SAFE. *)
Theorem is_pollution_unsafe_agrees_with_analysis :
  forall r : DustReading,
    (is_pollution_unsafe r = true <-> status (analyze_reading r) = UNSAFE) /\
    (is_pollution_unsafe r = false <-> status (analyze_reading r) = SAFE) /\
    (severity (analyze_reading r) = LOW <-> status (analyze_reading r) = SAFE).
Proof.
  intros r.
  unfold is_pollution_unsafe, analyze_reading, analyze_pm25, analyze_pm10.
  cbn [status severity].
  destruct (Py.gt (pm25 r) PM25_SAFE_THRESHOLD), (Py.gt (pm10 r) PM10_SAFE_THRESHOLD);
    cbn [fst snd orb].
  all: repeat match goal with
       | |- context [if ?b then _ else _] => destruct b
       end.
  all: intuition (try discriminate; try reflexivity).
Qed.

Lemma gt_nan_l (x c : float) : is_nan x = true -> Py.gt x c = false.
Proof.
  intros H. unfold Py.gt. rewrite ltb_spec, (Prim2SF_nan x H).
  unfold SFltb. destruct (Prim2SF c); reflexivity.
Qed.

(** X4.  A NaN measurement never trips a threshold: a reading whose PM2.5
    is NaN is classified from its PM10 value alone, one whose PM10 is NaN
    from its PM2.5 value alone, and a reading with both values NaN is
    SAFE with severity LOW, so it raises no alert. *)
Theorem nan_reading_is_not_flagged :
  forall r : DustReading,
    (is_nan (pm25 r) = true ->
       (status (analyze_reading r) = UNSAFE <-> Py.gt (pm10 r) 50 = true)) /\
    (is_nan (pm10 r) = true ->
       (status (analyze_reading r) = UNSAFE <-> Py.gt (pm25 r) 25 = true) /\
       severity (analyze_reading r) = snd (analyze_pm25 r (SAFE, LOW))) /\
    (is_nan (pm25 r) = true -> is_nan (pm10 r) = true ->
       status (analyze_reading r) = SAFE /\ severity (analyze_reading r) = LOW /\
       is_pollution_unsafe r = false).
Proof.
  intros r.
  unfold is_pollution_unsafe, analyze_reading, analyze_pm25, analyze_pm10,
    PM25_SAFE_THRESHOLD, PM10_SAFE_THRESHOLD.
  cbn [status severity].
  split; [ | split ].
  - intros H. rewrite (gt_nan_l _ 25 H). cbn [fst snd].
    destruct (Py.gt (pm10 r) 50); cbn [fst]; intuition discriminate.
  - intros H. rewrite (gt_nan_l _ 50 H).
    destruct (Py.gt (pm25 r) 25); cbn [fst snd]; intuition discriminate.
  - intros H1 H2. rewrite (gt_nan_l _ 25 H1), (gt_nan_l _ 50 H2). auto.
Qed.

Lemma nan_reading_is_not_flagged_witness :
  is_nan (pm25 (sample_reading nan nan)) = true /\
  is_nan (pm10 (sample_reading nan nan)) = true /\
  status (analyze_reading (sample_reading nan nan)) = SAFE.
Proof.
  split; [ reflexivity | split; [ reflexivity | ] ].
  destruct (nan_reading_is_not_flagged (sample_reading nan nan)) as (_ & _ & H).
  exact (proj1 (H eq_refl eq_refl)).
Defined.

(** ** Alerts *)

(** X5.  The message of an alert built from a reading and the analysis of
    that reading carries the severity of the analysis and the identifier
    of the mote, and lists one to two issues when the analysis is UNSAFE:
    PM2.5 (with its value and the threshold 25.0) exactly when PM2.5
    breached, then PM10 (with its value and the threshold 50.0) exactly
    when PM10 breached.  With an analysis of some other reading the list
    can be empty: it only depends on the reading. *)
Theorem alert_message_lists_breaches :
  forall r : DustReading,
    let a := analyze_reading r in
    let msg := a_message (make_alert r a) in
    msg_severity msg = severity a /\
    msg_mote_id msg = mote_id r /\
    msg_issues msg =
      (if Py.gt (pm25 r) 25 then [IssuePM25 (pm25 r) 25] else []) ++
      (if Py.gt (pm10 r) 50 then [IssuePM10 (pm10 r) 50] else []) /\
    (status a = UNSAFE -> (1 <= length (msg_issues msg) <= 2)%nat) /\
    (status a = SAFE -> msg_issues msg = []) /\
    (forall a' : Analysis,
       msg_issues (generate_alert_message r a') = msg_issues msg).
Proof.
  intros r a msg. subst msg a.
  unfold make_alert, generate_alert_message, analyze_reading, analyze_pm25,
    analyze_pm10, PM25_SAFE_THRESHOLD, PM10_SAFE_THRESHOLD.
  cbn [a_message msg_severity msg_mote_id msg_issues status severity].
  destruct (Py.gt (pm25 r) 25), (Py.gt (pm10 r) 50); cbn [fst snd app length].
  all: repeat split; try reflexivity; try discriminate; try lia.
Qed.

Lemma analyze_reading_status (r : DustReading) :
  status (analyze_reading r) = if is_pollution_unsafe r then UNSAFE else SAFE.
Proof.
  unfold is_pollution_unsafe, analyze_reading, analyze_pm25, analyze_pm10.
  cbn [status].
  destruct (Py.gt (pm25 r) PM25_SAFE_THRESHOLD),
           (Py.gt (pm10 r) PM10_SAFE_THRESHOLD); reflexivity.
Qed.

Lemma analyze_reading_unsafe_severity (r : DustReading) :
  status (analyze_reading r) = UNSAFE -> severity (analyze_reading r) <> LOW.
Proof.
  unfold analyze_reading, analyze_pm25, analyze_pm10. cbn [status severity].
  destruct (Py.gt (pm25 r) PM25_SAFE_THRESHOLD),
           (Py.gt (pm10 r) PM10_SAFE_THRESHOLD); cbn [fst snd];
    try discriminate; intros _;
    repeat match goal with
    | |- context [if ?b then _ else _] => destruct b
    end; discriminate.
Qed.

(** X6.  Evaluating a reading that breaches neither threshold, with its
    own analysis, does nothing: the alert log and the callbacks are
    unchanged, no callback is called and the observers' state is
    untouched.  Evaluating a reading that breaches one, with its own
    analysis, puts the alert of that reading, whose severity is not LOW,
    at the newest end of the log. *)
Theorem check_and_alert_follows_the_classifier :
  forall (W : Type) (s : AlertSystem W) (r : DustReading) (w : W),
    (is_pollution_unsafe r = false ->
       check_and_alert s r (analyze_reading r) w =
       (s, {| n_world := w; n_called := []; n_raised := None |})) /\
    (is_pollution_unsafe r = true ->
       last (alerts (fst (check_and_alert s r (analyze_reading r) w)))
       = Some (make_alert r (analyze_reading r)) /\
       a_severity (make_alert r (analyze_reading r)) <> LOW).
Proof.
  intros W s r w.
  pose proof (analyze_reading_status r) as Hst.
  split; intros H; rewrite H in Hst.
  - unfold check_and_alert. rewrite Hst. reflexivity.
  - split; [ | apply analyze_reading_unsafe_severity, Hst ].
    rewrite check_and_alert_alerts, Hst.
    unfold last_n. rewrite length_app. cbn [length].
    rewrite drop_app_le by lia. apply last_snoc.
Qed.

(** X8.  With a negative count [get_recent_alerts] does not fail: it
    returns the log without its [-count] oldest alerts (the empty list
    when the log is not longer than that). *)
Theorem get_recent_alerts_negative :
  forall (W : Type) (s : AlertSystem W) (count : Z),
    count < 0 ->
    get_recent_alerts s count = drop (Z.to_nat (- count)) (alerts s).
Proof.
  intros W s count Hneg. unfold get_recent_alerts, Builtin.slice_from.
  destruct (alerts s) as [ | a0 rest ] eqn:Ha; [ rewrite drop_nil; reflexivity | ].
  destruct (Z.ltb_spec (- count) 0) as [H | _]; [ lia | ].
  destruct (Z.min_spec (- count) (Z.of_nat (length (a0 :: rest))))
    as [[Hlt ->] | [Hge ->]].
  - reflexivity.
  - rewrite Nat2Z.id, drop_all. symmetry. apply drop_ge. lia.
Qed.

Lemma get_recent_alerts_negative_witness :
  (-1 < 0) /\
  get_recent_alerts
    {| alerts := [make_alert (sample_reading 60 10) (analyze_reading (sample_reading 60 10));
                  make_alert (sample_reading 10 120) (analyze_reading (sample_reading 10 120))];
       alert_callbacks := @nil (Callback unit) |} (-1)
  = [make_alert (sample_reading 10 120) (analyze_reading (sample_reading 10 120))].
Proof.
  split; [ lia | ].
  rewrite (get_recent_alerts_negative unit _ (-1) ltac:(lia)). reflexivity.
Defined.

Lemma get_recent_alerts_positive_witness :
  (0 < 1)%nat /\
  get_recent_alerts
    {| alerts := [make_alert (sample_reading 60 10) (analyze_reading (sample_reading 60 10));
                  make_alert (sample_reading 10 120) (analyze_reading (sample_reading 10 120))];
       alert_callbacks := @nil (Callback unit) |} 1
  = [make_alert (sample_reading 10 120) (analyze_reading (sample_reading 10 120))].
Proof.
  split; [ lia | ].
  rewrite (proj1 (get_recent_alerts_positive (W := unit) _ 1 ltac:(lia))). reflexivity.
Defined.

(** ** The aggregator *)

(** X9.  [add_reading] always keeps the reading it is given, as the newest
    entry, and keeps the older readings in their order, dropping from the
    oldest end only what exceeds 1000 entries. *)
Theorem add_reading_keeps_newest :
  forall (p : DataProcessor) (r : DustReading),
    let old := all_readings p in
    let new := all_readings (add_reading p r) in
    last new = Some r /\
    new = drop (length old + 1 - 1000) old ++ [r] /\
    length new = Nat.min 1000 (length old + 1).
Proof.
  intros p r old new. subst old new.
  rewrite add_reading_last_n. unfold last_n.
  rewrite length_app. cbn [length].
  rewrite drop_app_le by lia.
  split; [ apply last_snoc | split; [ reflexivity | ] ].
  rewrite length_app, length_drop. cbn [length]. lia.
Qed.

(** X10.  [get_statistics] never raises.  It returns the empty dictionary
    exactly when no reading is stored; otherwise [total_readings] is the
    number of stored readings and [recent_readings], the number of
    readings the averages and extremes are computed from, is that number
    capped at 100, so it is at least 1 and at most [total_readings]. *)
Theorem get_statistics_counts :
  forall p : DataProcessor,
    exists o : option Statistics,
      get_statistics p = Ok o /\
      (o = None <-> all_readings p = []) /\
      (forall st, o = Some st ->
         total_readings st = length (all_readings p) /\
         recent_readings st = Nat.min 100 (total_readings st) /\
         (1 <= recent_readings st <= total_readings st)%nat).
Proof.
  intros p. destruct (all_readings p) as [ | r0 rs ] eqn:Hall.
  - exists None. unfold get_statistics. rewrite Hall.
    split; [ reflexivity | split; [ tauto | discriminate ] ].
  - eexists. split; [ apply get_statistics_nonempty; congruence | ].
    split; [ split; discriminate | ].
    intros st Hst. injection Hst as <-.
    cbn [total_readings recent_readings]. unfold recent_window.
    rewrite last_n_length, Hall. cbn [length]. lia.
Qed.

Lemma fold_left_max_in (t : list float) : forall x : float,
  In (fold_left Builtin.max t x) (x :: t).
Proof.
  induction t as [ | y t IH ]; intros x; [ left; reflexivity | ].
  cbn [fold_left].
  assert (Hm : Builtin.max x y = x \/ Builtin.max x y = y).
  { unfold Builtin.max. destruct (Py.gt y x); auto. }
  destruct (IH (Builtin.max x y)) as [H | H].
  - destruct Hm as [Hm | Hm]; rewrite Hm in H at 1.
    + left. exact H.
    + right. left. exact H.
  - right. right. exact H.
Qed.

Lemma fold_left_min_in (t : list float) : forall x : float,
  In (fold_left Builtin.min t x) (x :: t).
Proof.
  induction t as [ | y t IH ]; intros x; [ left; reflexivity | ].
  cbn [fold_left].
  assert (Hm : Builtin.min x y = x \/ Builtin.min x y = y).
  { unfold Builtin.min. destruct (Py.lt y x); auto. }
  destruct (IH (Builtin.min x y)) as [H | H].
  - destruct Hm as [Hm | Hm]; rewrite Hm in H at 1.
    + left. exact H.
    + right. left. exact H.
  - right. right. exact H.
Qed.

Lemma list_max_in (xs : list float) : xs <> [] -> In (list_max xs) xs.
Proof. destruct xs; [ congruence | intros _; apply fold_left_max_in ]. Qed.

Lemma list_min_in (xs : list float) : xs <> [] -> In (list_min xs) xs.
Proof. destruct xs; [ congruence | intros _; apply fold_left_min_in ]. Qed.

(** X11.  The extremes [get_statistics] reports are measured values: each
    of [max_pm25], [min_pm25], [max_pm10] and [min_pm10] is the value of
    one of the 100 most recent readings, rounded to two decimals. *)
Theorem statistics_extremes_are_readings :
  forall (p : DataProcessor) (st : Statistics),
    get_statistics p = Ok (Some st) ->
    (exists r, In r (last_n 100 (all_readings p)) /\
               max_pm25 st = Builtin.round2 (pm25 r)) /\
    (exists r, In r (last_n 100 (all_readings p)) /\
               min_pm25 st = Builtin.round2 (pm25 r)) /\
    (exists r, In r (last_n 100 (all_readings p)) /\
               max_pm10 st = Builtin.round2 (pm10 r)) /\
    (exists r, In r (last_n 100 (all_readings p)) /\
               min_pm10 st = Builtin.round2 (pm10 r)).
Proof.
  intros p st Hst.
  assert (Hne : all_readings p <> []).
  { intros Hnil. unfold get_statistics in Hst. rewrite Hnil in Hst. discriminate. }
  rewrite (get_statistics_nonempty p Hne) in Hst. injection Hst as <-.
  cbn [max_pm25 min_pm25 max_pm10 min_pm10]. fold (recent_window p).
  assert (Hw : recent_window p <> []).
  { unfold recent_window. intros Hnil. apply (f_equal length) in Hnil.
    rewrite last_n_length in Hnil. destruct (all_readings p); [ congruence | ].
    cbn in Hnil. lia. }
  assert (Hpick : forall (f : DustReading -> float) (v : float),
            In v (map f (recent_window p)) ->
            exists r, In r (recent_window p) /\ Builtin.round2 v = Builtin.round2 (f r)).
  { intros f v Hv. apply in_map_iff in Hv as (r & <- & Hr). exists r. auto. }
  assert (Hmap : forall f : DustReading -> float, map f (recent_window p) <> []).
  { intros f Hnil. apply Hw. destruct (recent_window p); [ reflexivity | discriminate ]. }
  repeat split; apply Hpick;
    first [ apply list_max_in, Hmap | apply list_min_in, Hmap ].
Qed.

Lemma statistics_extremes_are_readings_witness :
  exists st,
    get_statistics (add_reading DataProcessor_init (sample_reading 30 10)) = Ok (Some st) /\
    exists r, In r (last_n 100 (all_readings
                      (add_reading DataProcessor_init (sample_reading 30 10)))) /\
              max_pm25 st = Builtin.round2 (pm25 r).
Proof.
  eexists. split; [ reflexivity | ].
  exact (proj1 (statistics_extremes_are_readings
                  (add_reading DataProcessor_init (sample_reading 30 10)) _ eq_refl)).
Defined.

(** X12.  The statistics only look at the 100 most recent readings: two
    histories with the same 100 most recent readings give the same
    averages and extremes, however many older readings each one holds. *)
Theorem statistics_depend_on_recent_window :
  forall (p q : DataProcessor) (sp sq : Statistics),
    last_n 100 (all_readings p) = last_n 100 (all_readings q) ->
    get_statistics p = Ok (Some sp) ->
    get_statistics q = Ok (Some sq) ->
    recent_readings sp = recent_readings sq /\
    avg_pm25 sp = avg_pm25 sq /\ avg_pm10 sp = avg_pm10 sq /\
    max_pm25 sp = max_pm25 sq /\ max_pm10 sp = max_pm10 sq /\
    min_pm25 sp = min_pm25 sq /\ min_pm10 sp = min_pm10 sq.
Proof.
  intros p q sp sq Hw Hp Hq.
  assert (Hnp : all_readings p <> []).
  { intros Hnil. unfold get_statistics in Hp. rewrite Hnil in Hp. discriminate. }
  assert (Hnq : all_readings q <> []).
  { intros Hnil. unfold get_statistics in Hq. rewrite Hnil in Hq. discriminate. }
  rewrite (get_statistics_nonempty p Hnp) in Hp. injection Hp as <-.
  rewrite (get_statistics_nonempty q Hnq) in Hq. injection Hq as <-.
  cbn [recent_readings avg_pm25 avg_pm10 max_pm25 max_pm10 min_pm25 min_pm10].
  unfold recent_window. rewrite Hw. repeat split; reflexivity.
Qed.

Lemma statistics_depend_on_recent_window_witness :
  let q := {| all_readings := repeat (sample_reading 10 10) 100 |} in
  let p := {| all_readings := sample_reading 99 99 :: all_readings q |} in
  last_n 100 (all_readings p) = last_n 100 (all_readings q) /\
  exists sp sq,
    get_statistics p = Ok (Some sp) /\ get_statistics q = Ok (Some sq) /\
    total_readings sp <> total_readings sq /\ avg_pm25 sp = avg_pm25 sq.
Proof.
  cbv zeta.
  set (q := {| all_readings := repeat (sample_reading 10 10) 100 |}).
  set (p := {| all_readings := sample_reading 99 99 :: all_readings q |}).
  assert (Hw : last_n 100 (all_readings p) = last_n 100 (all_readings q))
    by reflexivity.
  assert (Hp : all_readings p <> []) by discriminate.
  assert (Hq : all_readings q <> []) by (cbn; discriminate).
  split; [ exact Hw | ].
  eexists. eexists.
  split; [ apply get_statistics_nonempty, Hp | ].
  split; [ apply get_statistics_nonempty, Hq | ].
  split; [ cbn; discriminate | ].
  exact (proj1 (proj2 (statistics_depend_on_recent_window p q _ _ Hw
           (get_statistics_nonempty p Hp) (get_statistics_nonempty q Hq)))).
Defined.

(** ** Averages are never negative *)

Lemma ge_zero_nonneg_SF (x : float) : Py.ge x 0 = true <-> nonneg_SF (Prim2SF x).
Proof.
  unfold Py.ge. rewrite leb_spec. change (Prim2SF 0) with (S754_zero false).
  symmetry. apply nonneg_SF_leb.
Qed.

Lemma SFadd_nonneg x y :
  nonneg_SF x -> nonneg_SF y -> nonneg_SF (SFadd prec emax x y).
Proof.
  destruct x as [ sx | sx | | sx mx ex ], y as [ sy | sy | | sy my ey ];
    cbn [nonneg_SF SFadd]; try contradiction; intros Hx Hy; subst;
    try exact I; try reflexivity.
  - destruct sx, sy; exact I.
  - cbn [cond_Zopp]. apply binary_normalize_nonneg. lia.
Qed.

Lemma sum_nonneg (xs : list float) :
  Forall (fun x => Py.ge x 0 = true) xs -> Py.ge (Builtin.sum xs) 0 = true.
Proof.
  unfold Builtin.sum. intros Hall.
  assert (Hacc : Py.ge 0 0 = true) by reflexivity.
  revert Hacc. generalize 0%float at 1 3 as acc.
  induction Hall as [ | x xs Hx Hxs IH ]; intros acc Hacc; [ exact Hacc | ].
  cbn [fold_left]. apply IH.
  apply ge_zero_nonneg_SF. rewrite add_spec.
  apply SFadd_nonneg; apply ge_zero_nonneg_SF; assumption.
Qed.

Lemma SFdiv_nonneg_finite x m e :
  nonneg_SF x -> nonneg_SF (SFdiv prec emax x (S754_finite false m e)).
Proof.
  destruct x as [ sx | sx | | sx mx ex ]; cbn [nonneg_SF SFdiv];
    try contradiction; intros Hx; subst; try exact I; try reflexivity.
  cbn [xorb]. unfold SFdiv_core_binary.
  set (e' := Z.min _ _).
  set (m' := match ex - e - e' with Z.pos _ => _ | _ => _ end).
  assert (Hm : 0 <= m').
  { subst m'. destruct (ex - e - e'); try lia. apply Z.shiftl_nonneg. lia. }
  pose proof (Z.div_pos m' (Z.pos m) Hm ltac:(lia)) as Hq.
  unfold Z.div in Hq. destruct (Z.div_eucl m' (Z.pos m)) as [q r]. cbn [fst] in Hq.
  apply binary_round_aux_nonneg, Hq.
Qed.

Lemma lengths_ok_upto_spec n :
  lengths_ok_upto n = true ->
  forall k, (1 <= k <= n)%nat ->
    positive_finite_SF (Prim2SF (Builtin.float_of_nat k)) = true.
Proof.
  induction n as [ | n IH ]; intros H k Hk; [ lia | ].
  cbn [lengths_ok_upto] in H. apply andb_prop in H as [Hn Hrest].
  destruct (Nat.eq_dec k (S n)) as [-> | Hne]; [ exact Hn | ].
  apply IH; [ exact Hrest | lia ].
Qed.

Lemma lengths_ok_100 : lengths_ok_upto 100 = true.
Proof. vm_compute. reflexivity. Qed.

Lemma mean_nonneg (xs : list float) :
  (1 <= length xs <= 100)%nat ->
  Forall (fun x => Py.ge x 0 = true) xs ->
  Py.ge (mean xs) 0 = true.
Proof.
  intros Hlen Hall. unfold mean.
  apply ge_zero_nonneg_SF. rewrite div_spec.
  pose proof (lengths_ok_upto_spec 100 lengths_ok_100 (length xs) Hlen) as Hn.
  destruct (Prim2SF (Builtin.float_of_nat (length xs))) as [ | | | [ | ] m e ];
    try discriminate Hn.
  apply SFdiv_nonneg_finite, ge_zero_nonneg_SF, sum_nonneg, Hall.
Qed.

Lemma Forall_nonneg_map (f : DustReading -> float) (rs : list DustReading) :
  Forall (fun r => Py.ge (f r) 0 = true) rs ->
  Forall (fun x => Py.ge x 0 = true) (map f rs).
Proof. intros H. apply Forall_map. exact H. Qed.

(** X13.  When the 100 most recent readings all have PM2.5 >= 0 and
    PM10 >= 0, the six numbers [get_statistics] reports (averages, maxima
    and minima of PM2.5 and PM10) are all >= 0, hence none of them is
    NaN. *)
Theorem statistics_are_nonnegative :
  forall (p : DataProcessor) (st : Statistics),
    get_statistics p = Ok (Some st) ->
    Forall nonneg_reading (last_n 100 (all_readings p)) ->
    Py.ge (avg_pm25 st) 0 = true /\ Py.ge (avg_pm10 st) 0 = true /\
    Py.ge (max_pm25 st) 0 = true /\ Py.ge (max_pm10 st) 0 = true /\
    Py.ge (min_pm25 st) 0 = true /\ Py.ge (min_pm10 st) 0 = true.
Proof.
  intros p st Hst Hall.
  assert (Hne : all_readings p <> []).
  { intros Hnil. unfold get_statistics in Hst. rewrite Hnil in Hst. discriminate. }
  rewrite (get_statistics_nonempty p Hne) in Hst. injection Hst as <-.
  cbn [avg_pm25 avg_pm10 max_pm25 max_pm10 min_pm25 min_pm10].
  fold (recent_window p) in Hall.
  assert (Hlen : (1 <= length (recent_window p) <= 100)%nat).
  { unfold recent_window. rewrite last_n_length.
    destruct (all_readings p); [ congruence | cbn [length]; lia ]. }
  assert (H25 : Forall (fun x => Py.ge x 0 = true) (map pm25 (recent_window p))).
  { apply Forall_nonneg_map. eapply Forall_impl; [ exact Hall | ].
    intros r [H _]. exact H. }
  assert (H10 : Forall (fun x => Py.ge x 0 = true) (map pm10 (recent_window p))).
  { apply Forall_nonneg_map. eapply Forall_impl; [ exact Hall | ].
    intros r [_ H]. exact H. }
  assert (Hn25 : map pm25 (recent_window p) <> []).
  { destruct (recent_window p); [ cbn in Hlen; lia | discriminate ]. }
  assert (Hn10 : map pm10 (recent_window p) <> []).
  { destruct (recent_window p); [ cbn in Hlen; lia | discriminate ]. }
  rewrite Forall_forall in H25, H10.
  repeat split; apply round2_nonneg.
  - apply mean_nonneg; [ rewrite length_map; exact Hlen | apply Forall_forall, H25 ].
  - apply mean_nonneg; [ rewrite length_map; exact Hlen | apply Forall_forall, H10 ].
  - apply H25, list_elem_of_In, list_max_in, Hn25.
  - apply H10, list_elem_of_In, list_max_in, Hn10.
  - apply H25, list_elem_of_In, list_min_in, Hn25.
  - apply H10, list_elem_of_In, list_min_in, Hn10.
Qed.

Lemma sense_nonneg_reading m d now : nonneg_reading (fst (sense m d now)).
Proof.
  split; cbn [sense fst pm25 pm10]; apply round2_nonneg, max_zero_nonneg.
Qed.

Lemma sense_all_nonneg inputs : forall m,
  Forall nonneg_reading (fst (sense_all m inputs)).
Proof.
  induction inputs as [ | [d now] rest IH ]; intros m; [ constructor | ].
  cbn [sense_all].
  pose proof (sense_nonneg_reading m d now) as Hr.
  destruct (sense m d now) as [r m1]. specialize (IH m1).
  destruct (sense_all m1 rest) as [rs m2]. cbn [fst] in *.
  constructor; assumption.
Qed.

(** X14.  Whatever the intensity of a mote and the random draws of its
    calls of [sense], [get_average_pollution] returns (it never raises)
    two averages that are >= 0, hence not NaN. *)
Theorem average_pollution_is_nonnegative :
  forall (id : string) (loc : float * float) (base : float)
         (inputs : list (Draws * Z)),
    exists m0, SmartDustMote_init id loc base = Ok m0 /\
      exists a b : float,
        get_average_pollution (snd (sense_all m0 inputs)) = Ok (a, b) /\
        Py.ge a 0 = true /\ Py.ge b 0 = true.
Proof.
  intros id loc base inputs. eexists. split; [ reflexivity | ].
  match goal with |- context [sense_all ?m0 _] => set (m := m0) end.
  assert (Hh : reading_history (snd (sense_all m inputs))
               = last_n 100 (fst (sense_all m inputs))).
  { apply (sense_all_history inputs m []). reflexivity. }
  assert (Hall : Forall nonneg_reading (reading_history (snd (sense_all m inputs)))).
  { rewrite Hh. unfold last_n. apply Forall_drop, sense_all_nonneg. }
  assert (Hlen : (length (reading_history (snd (sense_all m inputs))) <= 100)%nat).
  { rewrite Hh, last_n_length. lia. }
  rewrite get_average_pollution_ok. unfold average_pollution.
  destruct (reading_history (snd (sense_all m inputs))) as [ | r rs ] eqn:Hhist.
  - exists 0%float, 0%float. repeat split; reflexivity.
  - eexists. eexists. split; [ reflexivity | ].
    split; apply round2_nonneg, mean_nonneg;
      try (rewrite length_map; cbn [length] in *; lia);
      apply Forall_nonneg_map; (eapply Forall_impl; [ exact Hall | ]).
    + intros x [H _]. exact H.
    + intros x [_ H]. exact H.
Qed.

Lemma statistics_are_nonnegative_witness :
  exists st,
    get_statistics (add_reading DataProcessor_init (sample_reading 30 10)) = Ok (Some st) /\
    Forall nonneg_reading
      (last_n 100 (all_readings (add_reading DataProcessor_init (sample_reading 30 10)))) /\
    Py.ge (avg_pm25 st) 0 = true.
Proof.
  assert (Hall : Forall nonneg_reading
            (last_n 100 (all_readings
               (add_reading DataProcessor_init (sample_reading 30 10))))).
  { repeat constructor. }
  eexists. split; [ reflexivity | split; [ exact Hall | ] ].
  exact (proj1 (statistics_are_nonnegative
                  (add_reading DataProcessor_init (sample_reading 30 10)) _ eq_refl Hall)).
Defined.

(** ** The simulation: creation *)

Lemma uint_of_string_zeros (k : nat) (s : string) (d : Decimal.uint) :
  NilEmpty.uint_of_string s = Some d ->
  exists d', NilEmpty.uint_of_string (String.append (zeros k) s) = Some d' /\
             Nat.of_uint d' = Nat.of_uint d.
Proof.
  intros Hs. induction k as [ | k (d' & Hd' & Hval) ].
  - exists d. auto.
  - exists (Decimal.D0 d').
    change (NilEmpty.uint_of_string (String.append (zeros (S k)) s))
      with (uint_of_char "0" (NilEmpty.uint_of_string (String.append (zeros k) s))).
    rewrite Hd'. split; [ reflexivity | ]. rewrite <- Hval. reflexivity.
Qed.

Lemma format_03d_parse (n : nat) :
  exists d, NilEmpty.uint_of_string (format_03d n) = Some d /\ Nat.of_uint d = n.
Proof.
  unfold format_03d.
  destruct (uint_of_string_zeros
              (3 - String.length (NilEmpty.string_of_uint (Nat.to_uint n)))
              _ _ (NilEmpty.usu (Nat.to_uint n))) as (d & Hd & Hval).
  exists d. split; [ exact Hd | ]. rewrite Hval. apply DecimalNat.Unsigned.of_to.
Qed.

Lemma mote_name_inj (i j : nat) : mote_name i = mote_name j -> i = j.
Proof.
  unfold mote_name. intros H. injection H as H.
  change (format_03d (i + 1) = format_03d (j + 1)) in H.
  destruct (format_03d_parse (i + 1)) as (di & Hdi & Hi).
  destruct (format_03d_parse (j + 1)) as (dj & Hdj & Hj).
  rewrite H, Hdj in Hdi. injection Hdi as <-. lia.
Qed.

Lemma NoDup_mote_names (n : nat) : NoDup (map mote_name (seq 0 n)).
Proof.
  assert (Hinj : Inj (=) (=) mote_name) by (intros i j; apply mote_name_inj).
  apply (NoDup_fmap_2 mote_name), NoDup_seq.
Qed.

Lemma create_motes_spec (layout : nat -> (float * float) * float) (indices : list nat) :
  create_motes indices layout =
  Ok (map (fun i => mkMote (mote_name i) (fst (layout i)) (snd (layout i)) true [])
        indices).
Proof.
  induction indices as [ | i rest IH ]; [ reflexivity | ].
  cbn [create_motes map]. destruct (layout i) as [loc base]. cbn [fst snd].
  unfold SmartDustMote_init. cbn [mbind result_bind]. rewrite IH. reflexivity.
Qed.

(** X15.  [SmartDustSimulation.__init__] never fails.  It creates
    [num_motes] motes (none for a negative number) named ["MOTE-001"],
    ["MOTE-002"], ... in order; the names are pairwise distinct for every
    number of motes, also beyond 999 where the number takes four digits.
    Every mote is active with an empty history and carries the location
    and intensity drawn for it; no reading and no alert is stored, the
    console callback is the only one registered, and the pollution map of
    the new motes has, for each of them, an entry with averages 0 and
    status SAFE. *)
Theorem simulation_init_creates_distinct_motes :
  forall (num_motes : Z) (layout : nat -> (float * float) * float),
    exists sim : SmartDustSimulation,
      SmartDustSimulation_init num_motes layout = Ok sim /\
      length (motes sim) = Z.to_nat num_motes /\
      NoDup (map m_mote_id (motes sim)) /\
      (forall i, (i < Z.to_nat num_motes)%nat ->
         motes sim !! i =
         Some (mkMote (mote_name i) (fst (layout i)) (snd (layout i)) true [])) /\
      mote_name 0 = "MOTE-001" /\ mote_name 41 = "MOTE-042" /\
      mote_name 999 = "MOTE-1000" /\
      all_readings (processor sim) = [] /\
      alerts (alert_system sim) = [] /\
      alert_callbacks (alert_system sim) = [on_alert] /\
      is_running sim = false /\
      exists pm, get_pollution_map (motes sim) = Ok pm /\
        forall i, (i < Z.to_nat num_motes)%nat ->
          pm !! mote_name i = Some (mkEntry (fst (layout i)) 0 0 SAFE).
Proof.
  intros num_motes layout. unfold SmartDustSimulation_init.
  rewrite create_motes_spec. cbn [mbind result_bind].
  set (mk := fun i => mkMote (mote_name i) (fst (layout i)) (snd (layout i)) true []).
  set (n := Z.to_nat num_motes).
  eexists. split; [ reflexivity | ]. cbn [motes processor alert_system is_running].
  assert (Hids : map m_mote_id (map mk (seq 0 n)) = map mote_name (seq 0 n)).
  { rewrite map_map. reflexivity. }
  assert (Hnd : NoDup (map m_mote_id (map mk (seq 0 n)))).
  { rewrite Hids. apply NoDup_mote_names. }
  assert (Hlook : forall i, (i < n)%nat -> map mk (seq 0 n) !! i = Some (mk i)).
  { intros i Hi. change (map mk (seq 0 n)) with (mk <$> seq 0 n).
    rewrite list_lookup_fmap, lookup_seq_lt by exact Hi. reflexivity. }
  split; [ rewrite length_map, length_seq; reflexivity | ].
  split; [ exact Hnd | ].
  split; [ exact Hlook | ].
  do 7 (split; [ reflexivity | ]).
  destruct (pollution_map_loop_spec (map mk (seq 0 n)) ∅ Hnd) as (pm & Hpm & Hin & _).
  exists pm. split; [ exact Hpm | ].
  intros i Hi.
  specialize (Hin (mk i)). cbn [m_mote_id mk] in Hin.
  rewrite Hin; [ reflexivity | | reflexivity ].
  apply list_elem_of_In, list_elem_of_lookup. exists i. apply Hlook, Hi.
Qed.

(** ** The simulation: runs *)

Lemma check_and_alert_on_alert (s : AlertSystem Console) (r : DustReading)
    (w : Console) :
  alert_callbacks s = [on_alert] ->
  check_and_alert s r (analyze_reading r) w =
  if is_pollution_unsafe r then
    ({| alerts := last_n 100 (alerts s ++ [make_alert r (analyze_reading r)]);
        alert_callbacks := [on_alert] |},
     {| n_world := w ++ [printed_of_alert (make_alert r (analyze_reading r))];
        n_called := [0%nat]; n_raised := None |})
  else (s, {| n_world := w; n_called := []; n_raised := None |}).
Proof.
  intros Hcb. unfold check_and_alert.
  rewrite (analyze_reading_status r).
  destruct (is_pollution_unsafe r); [ | reflexivity ].
  rewrite Hcb. unfold ALERTS_MAXLEN.
  rewrite (truncate_last_n 100) by lia. reflexivity.
Qed.

Lemma sense_good_reading (names : list string) m d now :
  In (m_mote_id m) names -> good_reading names (fst (sense m d now)).
Proof.
  intros Hin. destruct (sense_nonneg_reading m d now) as [H25 H10].
  destruct (min_max_bounds (40.0 + g_hum d)%float) as [Hlo Hhi].
  refine (conj Hin (conj H25 (conj H10 (conj _ _)))); cbn [sense fst humidity].
  - apply round2_nonneg, Hlo.
  - apply round2_le_100; assumption.
Qed.

Lemma unsafe_good_alert (names : list string) (r : DustReading) :
  In (mote_id r) names -> is_pollution_unsafe r = true ->
  good_alert names (make_alert r (analyze_reading r)).
Proof.
  intros Hin Hunsafe.
  assert (Hbreach : Py.gt (pm25 r) 25 = true \/ Py.gt (pm10 r) 50 = true).
  { unfold is_pollution_unsafe in Hunsafe. apply orb_prop in Hunsafe. exact Hunsafe. }
  refine (conj Hin (conj Hbreach (conj _ (conj eq_refl _)))).
  - apply analyze_reading_unsafe_severity.
    rewrite analyze_reading_status, Hunsafe. reflexivity.
  - cbn [make_alert a_message generate_alert_message msg_issues].
    unfold PM25_SAFE_THRESHOLD, PM10_SAFE_THRESHOLD.
    destruct Hbreach as [-> | ->].
    + destruct (Py.gt (pm10 r) 50); discriminate.
    + destruct (Py.gt (pm25 r) 25); discriminate.
Qed.

Lemma printed_alerts_app (c1 c2 : Console) :
  printed_alerts (c1 ++ c2) = printed_alerts c1 ++ printed_alerts c2.
Proof. unfold printed_alerts. apply List.filter_app. Qed.

Lemma process_mote_inv (rng : nat -> Draws * Z) (names : list string)
    (generated : list Alert) (st : Pass) (mote : SmartDustMote) :
  pass_inv names generated st ->
  In (m_mote_id mote) names ->
  is_active mote = true ->
  (length (reading_history mote) <= 100)%nat ->
  exists st' new mote',
    process_mote rng st mote = Ok st' /\
    pass_inv names (generated ++ new) st' /\
    p_motes st' = p_motes st ++ [mote'] /\
    mote_identity mote' = mote_identity mote /\
    length (reading_history mote') = Nat.min 100 (S (length (reading_history mote))) /\
    p_ticks st' = S (p_ticks st).
Proof.
  intros [Hcb Hrd Hgen Hal Hco Hcnt] Hin Hact Hlen.
  unfold process_mote. rewrite Hact.
  destruct (rng (p_ticks st)) as [d now].
  pose proof (sense_good_reading names mote d now Hin) as Hgood.
  destruct (sense mote d now) as [reading mote'] eqn:Hsense. cbn [fst] in Hgood.
  assert (Hmote' : mote_identity mote' = mote_identity mote /\
                   length (reading_history mote')
                   = Nat.min 100 (S (length (reading_history mote)))).
  { unfold sense in Hsense. injection Hsense as _ <-. split; [ reflexivity | ].
    cbn [reading_history]. unfold HISTORY_MAXLEN.
    rewrite deque_append_last_n by exact Hlen.
    rewrite last_n_length, length_app. cbn [length]. lia. }
  assert (Hid : mote_id reading = m_mote_id mote).
  { unfold sense in Hsense. injection Hsense as <- _. reflexivity. }
  rewrite (check_and_alert_on_alert _ _ _ Hcb).
  assert (Hrd' : Forall (good_reading names)
                   (all_readings (add_reading (p_processor st) reading))).
  { rewrite add_reading_last_n. unfold last_n. apply Forall_drop, Forall_app.
    split; [ exact Hrd | constructor; [ exact Hgood | constructor ] ]. }
  assert (Hcnt' : length (all_readings (add_reading (p_processor st) reading))
                  = Nat.min 1000 (S (p_ticks st))).
  { rewrite add_reading_last_n, last_n_length, length_app. cbn [length]. lia. }
  destruct (is_pollution_unsafe reading) eqn:Hunsafe; cbn [n_raised n_world].
  - eexists. exists [make_alert reading (analyze_reading reading)], mote'.
    split; [ reflexivity | ].
    split; [ | cbn [p_motes p_ticks]; tauto ].
    constructor; cbn [p_alerts p_processor p_console p_ticks alerts alert_callbacks].
    + reflexivity.
    + exact Hrd'.
    + apply Forall_app. split; [ exact Hgen | ].
      constructor; [ | constructor ].
      apply unsafe_good_alert; [ rewrite Hid; exact Hin | exact Hunsafe ].
    + rewrite Hal. apply last_n_app_l.
    + rewrite printed_alerts_app, Hco, map_app. reflexivity.
    + exact Hcnt'.
  - eexists. exists [], mote'.
    split; [ reflexivity | ].
    split; [ | cbn [p_motes p_ticks]; tauto ].
    rewrite app_nil_r.
    constructor; cbn [p_alerts p_processor p_console p_ticks]; assumption.
Qed.

Lemma process_motes_inv (rng : nat -> Draws * Z) (names : list string)
    (todo : list SmartDustMote) :
  forall (generated : list Alert) (st : Pass),
    pass_inv names generated st ->
    Forall (fun m => In (m_mote_id m) names /\ is_active m = true /\
                     (length (reading_history m) <= 100)%nat) todo ->
    exists st' new done,
      process_motes rng st todo = Ok st' /\
      pass_inv names (generated ++ new) st' /\
      p_motes st' = p_motes st ++ done /\
      map mote_identity done = map mote_identity todo /\
      Forall2 (fun m m' => length (reading_history m')
                           = Nat.min 100 (S (length (reading_history m))))
        todo done /\
      p_ticks st' = (p_ticks st + length todo)%nat.
Proof.
  induction todo as [ | mote rest IH ]; intros generated st Hinv Hall.
  - exists st, [], []. rewrite !app_nil_r.
    refine (conj eq_refl (conj Hinv (conj eq_refl (conj eq_refl (conj _ _))))).
    + constructor.
    + cbn [length]. lia.
  - apply Forall_cons_1 in Hall as [(Hin & Hact & Hlen) Hrest].
    destruct (process_mote_inv rng names generated st mote Hinv Hin Hact Hlen)
      as (st1 & new1 & mote' & Hstep & Hinv1 & Hm1 & Hid1 & Hlen1 & Ht1).
    destruct (IH (generated ++ new1) st1 Hinv1 Hrest)
      as (st2 & new2 & done & Hrun & Hinv2 & Hm2 & Hid2 & Hlen2 & Ht2).
    exists st2, (new1 ++ new2), (mote' :: done).
    cbn [process_motes]. rewrite Hstep. cbn [mbind result_bind].
    split; [ exact Hrun | ].
    split; [ rewrite app_assoc; exact Hinv2 | ].
    split; [ rewrite Hm2, Hm1, <- app_assoc; reflexivity | ].
    split; [ cbn [map]; rewrite Hid1, Hid2; reflexivity | ].
    split; [ constructor; assumption | ].
    rewrite Ht2, Ht1. cbn [length]. lia.
Qed.

Lemma get_statistics_ok (p : DataProcessor) : exists o, get_statistics p = Ok o.
Proof.
  destruct (all_readings p) as [ | r0 rs ] eqn:Hall.
  - exists None. unfold get_statistics. rewrite Hall. reflexivity.
  - eexists. apply get_statistics_nonempty. congruence.
Qed.

Lemma Forall2_in_right {A B : Type} (R : A -> B -> Prop) (l1 : list A) (l2 : list B) :
  Forall2 R l1 l2 -> forall y, In y l2 -> exists x, In x l1 /\ R x y.
Proof.
  induction 1 as [ | x y l1 l2 Hxy _ IH ]; intros z Hz; [ destruct Hz | ].
  destruct Hz as [<- | Hz].
  - exists x. split; [ left; reflexivity | exact Hxy ].
  - destruct (IH z Hz) as (x' & Hx' & HR). exists x'. split; [ right | ]; assumption.
Qed.

Lemma iteration_step_inv (rng : nat -> Draws * Z)
    (idents : list (string * (float * float) * float * bool))
    (generated : list Alert) (r : Running) :
  run_inv idents generated r ->
  exists r' new,
    iteration_step rng r = Ok r' /\
    run_inv idents (generated ++ new) r' /\
    r_iteration r' = S (r_iteration r).
Proof.
  intros [Hpass Hid Hact Hhist Hticks Hrun].
  set (names := map (fun i => fst (fst (fst i))) idents) in *.
  assert (Hall : Forall (fun m => In (m_mote_id m) names /\ is_active m = true /\
                                  (length (reading_history m) <= 100)%nat)
                   (motes (r_sim r))).
  { apply Forall_forall. intros m Hm. apply list_elem_of_In in Hm.
    assert (Hi : In (mote_identity m) idents).
    { rewrite <- Hid. apply in_map, Hm. }
    split; [ | split ].
    - subst names. change (m_mote_id m) with (fst (fst (fst (mote_identity m)))).
      apply (in_map (fun i => fst (fst (fst i)))), Hi.
    - rewrite Forall_forall in Hact.
      apply (Hact (mote_identity m)), list_elem_of_In, Hi.
    - rewrite Forall_forall in Hhist.
      rewrite (Hhist m) by (apply list_elem_of_In, Hm). lia. }
  destruct (process_motes_inv rng names (motes (r_sim r)) generated (pass_start r)
              Hpass Hall)
    as (st & new & done & Hproc & Hinv & Hmotes & Hids & Hlens & Ht).
  cbn [pass_start p_motes app p_ticks] in Hmotes, Ht.
  destruct (get_statistics_ok (p_processor st)) as [stats Hstats].
  unfold iteration_step. fold (pass_start r). rewrite Hproc. cbn [mbind result_bind].
  set (console' :=
         if (S (r_iteration r) mod 5 =? 0)%nat
         then p_console st ++ [display_status stats (get_recent_alerts (p_alerts st) 3)]
         else p_console st).
  assert (Hconsole :
    (if (S (r_iteration r) mod 5 =? 0)%nat
     then get_statistics (p_processor st) ≫= (fun stats0 =>
            Ok (p_console st ++
                [display_status stats0 (get_recent_alerts (p_alerts st) 3)]))
     else Ok (p_console st)) = Ok console').
  { subst console'. destruct (S (r_iteration r) mod 5 =? 0)%nat; [ | reflexivity ].
    rewrite Hstats. reflexivity. }
  rewrite Hconsole. cbn [mbind result_bind].
  eexists. exists new. split; [ reflexivity | ].
  split; [ | reflexivity ].
  destruct Hinv as [Hcb Hrd Hgen Hal Hco Hcnt].
  constructor; unfold pass_start;
    cbn [r_sim r_console r_ticks r_iteration motes processor alert_system
         is_running p_alerts p_processor p_console p_ticks].
  - constructor;
      cbn [r_sim r_console r_ticks r_iteration motes processor alert_system
           p_alerts p_processor p_console p_ticks]; try assumption.
    subst console'. destruct (S (r_iteration r) mod 5 =? 0)%nat; [ | exact Hco ].
    rewrite printed_alerts_app, Hco.
    unfold display_status. destruct stats; cbn; apply app_nil_r.
  - rewrite Hmotes, Hids. exact Hid.
  - exact Hact.
  - rewrite Hmotes. apply Forall_forall. intros m' Hm'.
    apply list_elem_of_In in Hm'.
    destruct (Forall2_in_right _ _ _ Hlens m' Hm') as (m & Hm & Hl). rewrite Hl.
    rewrite Forall_forall in Hhist.
    rewrite (Hhist m) by (apply list_elem_of_In, Hm). lia.
  - rewrite Ht, Hticks. rewrite <- Hid, length_map. lia.
  - exact Hrun.
Qed.

Lemma iterations_inv (rng : nat -> Draws * Z)
    (idents : list (string * (float * float) * float * bool)) (k : nat) :
  forall (generated : list Alert) (r : Running),
    run_inv idents generated r ->
    exists r' new,
      iterations rng k r = Ok r' /\
      run_inv idents (generated ++ new) r' /\
      r_iteration r' = (r_iteration r + k)%nat.
Proof.
  induction k as [ | k IH ]; intros generated r Hinv.
  - exists r, []. rewrite app_nil_r. cbn. auto with arith.
  - destruct (iteration_step_inv rng idents generated r Hinv)
      as (r1 & new1 & Hstep & Hinv1 & Hit1).
    destruct (IH (generated ++ new1) r1 Hinv1) as (r2 & new2 & Hrun & Hinv2 & Hit2).
    exists r2, (new1 ++ new2). cbn [iterations]. rewrite Hstep. cbn [mbind result_bind].
    split; [ exact Hrun | ]. split; [ rewrite app_assoc; exact Hinv2 | lia ].
Qed.

Lemma init_run_inv (num_motes : Z) (layout : nat -> (float * float) * float) :
  exists sim,
    SmartDustSimulation_init num_motes layout = Ok sim /\
    length (motes sim) = Z.to_nat num_motes /\
    map m_mote_id (motes sim) = map mote_name (seq 0 (Z.to_nat num_motes)) /\
    run_inv (map mote_identity (motes sim)) [] (start sim []).
Proof.
  unfold SmartDustSimulation_init. rewrite create_motes_spec.
  cbn [mbind result_bind]. eexists. split; [ reflexivity | ].
  cbn [motes]. set (n := Z.to_nat num_motes).
  split; [ rewrite length_map, length_seq; reflexivity | ].
  split; [ rewrite map_map; reflexivity | ].
  constructor; unfold start, pass_start;
    cbn [r_sim r_console r_ticks r_iteration motes processor alert_system is_running].
  - constructor; cbn [p_alerts p_processor p_console p_ticks]; try reflexivity;
      constructor.
  - reflexivity.
  - rewrite map_map. apply Forall_forall. intros i Hi.
    apply list_elem_of_In, in_map_iff in Hi as (j & <- & _). reflexivity.
  - apply Forall_forall. intros m Hm.
    apply list_elem_of_In, in_map_iff in Hm as (j & <- & _). reflexivity.
  - reflexivity.
  - reflexivity.
Qed.

(** X16.  A simulation created by [__init__] and run for any number [k] of
    iterations of its loop, with any random draws, never raises.  After
    [k] iterations every mote has been sensed [k] times and keeps its
    identifier, location, intensity and active flag; the history of each
    mote holds [min(100, k)] readings, the global history
    [min(1000, k * num_motes)] readings, the alert log at most 100
    alerts, and the console callback is still the only one registered. *)
Theorem simulation_run_is_bounded :
  forall (num_motes : Z) (layout : nat -> (float * float) * float)
         (rng : nat -> Draws * Z) (k : nat),
    exists (sim : SmartDustSimulation) (r : Running),
      SmartDustSimulation_init num_motes layout = Ok sim /\
      iterations rng k (start sim []) = Ok r /\
      r_iteration r = k /\
      r_ticks r = (k * Z.to_nat num_motes)%nat /\
      map mote_identity (motes (r_sim r)) = map mote_identity (motes sim) /\
      Forall (fun m => length (reading_history m) = Nat.min 100 k) (motes (r_sim r)) /\
      length (all_readings (processor (r_sim r)))
        = Nat.min 1000 (k * Z.to_nat num_motes) /\
      (length (alerts (alert_system (r_sim r))) <= 100)%nat /\
      alert_callbacks (alert_system (r_sim r)) = [on_alert] /\
      is_running (r_sim r) = true.
Proof.
  intros num_motes layout rng k.
  destruct (init_run_inv num_motes layout) as (sim & Hinit & Hlen & _ & Hinv).
  destruct (iterations_inv rng _ k [] (start sim []) Hinv)
    as (r & new & Hrun & [Hpass Hid Hact Hhist Hticks Hrunning] & Hit).
  cbn [start r_iteration] in Hit.
  destruct Hpass as [Hcb Hrd Hgen Hal Hco Hcnt].
  unfold pass_start in *. cbn [p_alerts p_processor p_console p_ticks] in *.
  rewrite length_map, Hlen in Hticks.
  exists sim, r. rewrite Hit in *. cbn [Nat.add] in *.
  repeat split; try assumption.
  - rewrite Hcnt, Hticks. reflexivity.
  - rewrite Hal, last_n_length. lia.
Qed.

(** X17.  In a simulation created by [__init__] and run for any number
    of iterations, every alert in the log is on one of the simulation's
    motes, reports a real breach (PM2.5 > 25 or PM10 > 50), has a
    severity other than LOW and a message that names at least one
    pollutant; every reading in the global history is a reading of one of
    the simulation's motes with PM2.5 >= 0, PM10 >= 0 and humidity within
    [[0, 100]]. *)
Theorem simulation_alerts_are_justified :
  forall (num_motes : Z) (layout : nat -> (float * float) * float)
         (rng : nat -> Draws * Z) (k : nat),
    exists (sim : SmartDustSimulation) (r : Running),
      SmartDustSimulation_init num_motes layout = Ok sim /\
      iterations rng k (start sim []) = Ok r /\
      (forall a, In a (alerts (alert_system (r_sim r))) ->
         In (a_mote_id a) (map m_mote_id (motes sim)) /\
         (Py.gt (a_pm25 a) 25 = true \/ Py.gt (a_pm10 a) 50 = true) /\
         a_severity a <> LOW /\
         msg_severity (a_message a) = a_severity a /\
         msg_issues (a_message a) <> []) /\
      (forall x, In x (all_readings (processor (r_sim r))) ->
         In (mote_id x) (map m_mote_id (motes sim)) /\
         Py.ge (pm25 x) 0 = true /\ Py.ge (pm10 x) 0 = true /\
         Py.ge (humidity x) 0 = true /\ Py.le (humidity x) 100 = true).
Proof.
  intros num_motes layout rng k.
  destruct (init_run_inv num_motes layout) as (sim & Hinit & Hlen & _ & Hinv).
  destruct (iterations_inv rng _ k [] (start sim []) Hinv)
    as (r & new & Hrun & [Hpass Hid Hact Hhist Hticks Hrunning] & Hit).
  destruct Hpass as [Hcb Hrd Hgen Hal Hco Hcnt].
  unfold pass_start in *. cbn [p_alerts p_processor p_console p_ticks] in *.
  rewrite map_map in Hrd, Hgen.
  change (fun x : SmartDustMote => fst (fst (fst (mote_identity x))))
    with m_mote_id in Hrd, Hgen.
  exists sim, r. split; [ exact Hinit | split; [ exact Hrun | split ] ].
  - intros a Ha. rewrite Hal in Ha. unfold last_n in Ha.
    rewrite Forall_forall in Hgen. apply (Hgen a).
    apply list_elem_of_In in Ha. apply (subseteq_drop _ _ _ Ha).
  - intros x Hx. rewrite Forall_forall in Hrd.
    apply (Hrd x), list_elem_of_In, Hx.
Qed.

Lemma raised_by_app (xs ys : list DustReading) :
  raised_by (xs ++ ys) = raised_by xs ++ raised_by ys.
Proof. unfold raised_by. rewrite List.filter_app, map_app. reflexivity. Qed.

Lemma sensed_by_identity (rng : nat -> Draws * Z) (m m' : SmartDustMote) (t : nat) :
  mote_identity m = mote_identity m' -> sensed_by rng m t = sensed_by rng m' t.
Proof.
  unfold mote_identity. intros [= Hid Hloc Hbase _].
  unfold sensed_by, sense, sense_pm25, sense_pm10. cbn [fst].
  rewrite Hid, Hloc, Hbase. reflexivity.
Qed.

Lemma pass_readings_identity (rng : nat -> Draws * Z) (l : list SmartDustMote) :
  forall (l' : list SmartDustMote) (t : nat),
    map mote_identity l = map mote_identity l' ->
    pass_readings rng t l = pass_readings rng t l'.
Proof.
  induction l as [ | m rest IH ]; intros [ | m' rest' ] t Hmap;
    try discriminate Hmap; [ reflexivity | ].
  pose proof (f_equal (hd (mote_identity m)) Hmap) as Hm.
  pose proof (f_equal (@tl _) Hmap) as Hrest.
  cbn [map hd tl] in Hm, Hrest. cbn [pass_readings].
  assert (Hact : is_active m = is_active m').
  { unfold mote_identity in Hm. congruence. }
  rewrite Hact, (sensed_by_identity rng m m' t Hm).
  destruct (is_active m'); [ f_equal | ]; apply IH, Hrest.
Qed.

Lemma process_mote_trace (rng : nat -> Draws * Z) (xs : list DustReading)
    (st : Pass) (mote : SmartDustMote) :
  trace_inv xs st ->
  exists st' mote',
    process_mote rng st mote = Ok st' /\
    trace_inv (xs ++ pass_readings rng (length xs) [mote]) st' /\
    p_motes st' = p_motes st ++ [mote'] /\
    mote_identity mote' = mote_identity mote.
Proof.
  intros [Hcb Hrd Hal Hco Ht].
  unfold process_mote. cbn [pass_readings]. unfold sensed_by.
  destruct (is_active mote) eqn:Hact.
  - rewrite Ht. destruct (rng (length xs)) as [d now]. cbn [fst snd].
    destruct (sense mote d now) as [reading mote'] eqn:Hsense. cbn [fst].
    assert (Hmote' : mote_identity mote' = mote_identity mote).
    { unfold sense in Hsense. injection Hsense as _ <-. unfold mote_identity.
      cbn [m_mote_id m_location base_pollution is_active]. reflexivity. }
    rewrite (check_and_alert_on_alert _ _ _ Hcb).
    assert (Hrd' : all_readings (add_reading (p_processor st) reading)
                   = last_n 1000 (xs ++ [reading])).
    { rewrite add_reading_last_n, Hrd. apply last_n_app_l. }
    assert (Hlen' : S (length xs) = length (xs ++ [reading])).
    { rewrite length_app. cbn [length]. lia. }
    assert (Hraised : raised_by (xs ++ [reading])
                      = raised_by xs ++
                        (if is_pollution_unsafe reading
                         then [make_alert reading (analyze_reading reading)] else [])).
    { rewrite raised_by_app. f_equal. unfold raised_by. cbn [List.filter].
      destruct (is_pollution_unsafe reading); reflexivity. }
    destruct (is_pollution_unsafe reading) eqn:Hunsafe; cbn [n_raised n_world].
    + eexists. exists mote'. split; [ reflexivity | ].
      split; [ | split; [ reflexivity | exact Hmote' ] ].
      constructor; cbn [p_alerts p_processor p_console p_ticks alerts alert_callbacks].
      * reflexivity.
      * exact Hrd'.
      * rewrite Hraised, Hal. apply last_n_app_l.
      * rewrite Hraised, printed_alerts_app, Hco, map_app. reflexivity.
      * exact Hlen'.
    + eexists. exists mote'. split; [ reflexivity | ].
      split; [ | split; [ reflexivity | exact Hmote' ] ].
      rewrite app_nil_r in Hraised.
      constructor; cbn [p_alerts p_processor p_console p_ticks].
      * exact Hcb.
      * exact Hrd'.
      * rewrite Hraised. exact Hal.
      * rewrite Hraised. exact Hco.
      * exact Hlen'.
  - exists {| p_motes := p_motes st ++ [mote]; p_processor := p_processor st;
              p_alerts := p_alerts st; p_console := p_console st;
              p_ticks := p_ticks st |}, mote.
    split; [ reflexivity | ]. rewrite app_nil_r.
    split; [ constructor; assumption | split; reflexivity ].
Qed.

Lemma pass_readings_length (rng : nat -> Draws * Z) (l : list SmartDustMote) :
  forall t, length (pass_readings rng t l) = length (active_motes l).
Proof.
  induction l as [ | m rest IH ]; intros t; [ reflexivity | ].
  cbn [pass_readings active_motes List.filter].
  destruct (is_active m); cbn [length]; [ f_equal | ]; apply IH.
Qed.

Lemma pass_readings_cons (rng : nat -> Draws * Z) (m : SmartDustMote)
    (rest : list SmartDustMote) (t : nat) :
  pass_readings rng t (m :: rest)
  = pass_readings rng t [m]
    ++ pass_readings rng (t + length (pass_readings rng t [m])) rest.
Proof.
  cbn [pass_readings]. destruct (is_active m); cbn [app length].
  - replace (t + 1)%nat with (S t) by lia. reflexivity.
  - rewrite Nat.add_0_r. reflexivity.
Qed.

Lemma process_motes_trace (rng : nat -> Draws * Z) (todo : list SmartDustMote) :
  forall (xs : list DustReading) (st : Pass),
    trace_inv xs st ->
    exists st' done,
      process_motes rng st todo = Ok st' /\
      trace_inv (xs ++ pass_readings rng (length xs) todo) st' /\
      p_motes st' = p_motes st ++ done /\
      map mote_identity done = map mote_identity todo.
Proof.
  induction todo as [ | mote rest IH ]; intros xs st Hinv.
  - exists st, []. cbn [pass_readings]. rewrite !app_nil_r.
    split; [ reflexivity | split; [ exact Hinv | split; reflexivity ] ].
  - destruct (process_mote_trace rng xs st mote Hinv)
      as (st1 & mote' & Hstep & Hinv1 & Hm1 & Hid1).
    destruct (IH _ st1 Hinv1) as (st2 & done & Hrun & Hinv2 & Hm2 & Hid2).
    exists st2, (mote' :: done).
    cbn [process_motes]. rewrite Hstep. cbn [mbind result_bind].
    split; [ exact Hrun | ].
    split; [ | split ].
    + rewrite pass_readings_cons, app_assoc.
      rewrite length_app in Hinv2. exact Hinv2.
    + rewrite Hm2, Hm1, <- app_assoc. reflexivity.
    + cbn [map]. rewrite Hid1, Hid2. reflexivity.
Qed.

Lemma iteration_step_trace (rng : nat -> Draws * Z) (ms : list SmartDustMote)
    (xs : list DustReading) (r : Running) :
  trace_inv xs (pass_start r) ->
  map mote_identity (motes (r_sim r)) = map mote_identity ms ->
  exists r',
    iteration_step rng r = Ok r' /\
    trace_inv (xs ++ pass_readings rng (length xs) ms) (pass_start r') /\
    map mote_identity (motes (r_sim r')) = map mote_identity ms.
Proof.
  intros Hinv Hid.
  destruct (process_motes_trace rng (motes (r_sim r)) xs (pass_start r) Hinv)
    as (st & done & Hproc & Hinv' & Hmotes & Hids).
  cbn [pass_start p_motes app] in Hmotes.
  rewrite (pass_readings_identity rng _ ms _ Hid) in Hinv'.
  destruct (get_statistics_ok (p_processor st)) as [stats Hstats].
  unfold iteration_step. fold (pass_start r). rewrite Hproc. cbn [mbind result_bind].
  destruct Hinv' as [Hcb Hrd Hal Hco Ht].
  destruct (S (r_iteration r) mod 5 =? 0)%nat.
  - rewrite Hstats. cbn [mbind result_bind]. eexists. split; [ reflexivity | ].
    unfold pass_start. cbn [r_sim r_console r_ticks motes processor alert_system].
    split; [ | rewrite Hmotes, Hids; exact Hid ].
    constructor; cbn [p_alerts p_processor p_console p_ticks]; try assumption.
    rewrite printed_alerts_app, Hco.
    unfold display_status. destruct stats; cbn; apply app_nil_r.
  - cbn [mbind result_bind]. eexists. split; [ reflexivity | ].
    unfold pass_start. cbn [r_sim r_console r_ticks motes processor alert_system].
    split; [ | rewrite Hmotes, Hids; exact Hid ].
    constructor; cbn [p_alerts p_processor p_console p_ticks]; assumption.
Qed.

Lemma iterations_trace (rng : nat -> Draws * Z) (ms : list SmartDustMote) (k : nat) :
  forall (xs : list DustReading) (r : Running),
    trace_inv xs (pass_start r) ->
    map mote_identity (motes (r_sim r)) = map mote_identity ms ->
    exists r',
      iterations rng k r = Ok r' /\
      trace_inv (xs ++ run_readings rng k (length xs) ms) (pass_start r') /\
      map mote_identity (motes (r_sim r')) = map mote_identity ms.
Proof.
  induction k as [ | k IH ]; intros xs r Hinv Hid.
  - exists r. cbn [iterations run_readings]. rewrite app_nil_r. auto.
  - destruct (iteration_step_trace rng ms xs r Hinv Hid) as (r1 & Hstep & Hinv1 & Hid1).
    destruct (IH _ r1 Hinv1 Hid1) as (r2 & Hrun & Hinv2 & Hid2).
    exists r2. cbn [iterations run_readings]. rewrite Hstep. cbn [mbind result_bind].
    split; [ exact Hrun | split; [ | exact Hid2 ] ].
    rewrite length_app, <- app_assoc in Hinv2. exact Hinv2.
Qed.

Lemma reading_at_offset (rng : nat -> Draws * Z) (pre rest : list SmartDustMote)
    (m : SmartDustMote) (j : nat) :
  reading_at rng (pre ++ m :: rest) (j * length (pre ++ m :: rest) + length pre)
  = Some (sensed_by rng m (j * length (pre ++ m :: rest) + length pre)).
Proof.
  unfold reading_at.
  set (ms := pre ++ m :: rest).
  assert (Hlt : (length pre < length ms)%nat).
  { subst ms. rewrite length_app. cbn [length]. lia. }
  rewrite Nat.add_comm, Nat.Div0.mod_add, Nat.mod_small by exact Hlt.
  subst ms. rewrite list_lookup_middle by reflexivity. reflexivity.
Qed.

Lemma pass_readings_closed (rng : nat -> Draws * Z) (ms : list SmartDustMote) (j : nat) :
  forall l pre : list SmartDustMote,
    ms = pre ++ l ->
    Forall (fun m => is_active m = true) l ->
    pass_readings rng (j * length ms + length pre) l
    = omap (reading_at rng ms) (seq (j * length ms + length pre) (length l)).
Proof.
  induction l as [ | m rest IH ]; intros pre Hms Hact; [ reflexivity | ].
  apply Forall_cons_1 in Hact as [Hm Hrest].
  cbn [pass_readings length seq omap]. rewrite Hm.
  assert (Hat : reading_at rng ms (j * length ms + length pre)
                = Some (sensed_by rng m (j * length ms + length pre))).
  { rewrite Hms. apply reading_at_offset. }
  cbn [list_omap]. rewrite Hat. f_equal.
  specialize (IH (pre ++ [m])). rewrite length_app in IH. cbn [length] in IH.
  replace (S (j * length ms + length pre))
    with (j * length ms + (length pre + 1))%nat by lia.
  apply IH; [ rewrite <- app_assoc; exact Hms | exact Hrest ].
Qed.

Lemma run_readings_closed (rng : nat -> Draws * Z) (ms : list SmartDustMote) :
  Forall (fun m => is_active m = true) ms ->
  forall k j : nat,
    run_readings rng k (j * length ms) ms
    = omap (reading_at rng ms) (seq (j * length ms) (k * length ms)).
Proof.
  intros Hact. induction k as [ | k IH ]; intros j; [ reflexivity | ].
  cbn [run_readings].
  assert (Hpass : pass_readings rng (j * length ms) ms
                  = omap (reading_at rng ms) (seq (j * length ms) (length ms))).
  { pose proof (pass_readings_closed rng ms j ms [] eq_refl Hact) as H.
    cbn [length] in H. rewrite Nat.add_0_r in H. exact H. }
  rewrite pass_readings_length.
  assert (Hall : active_motes ms = ms).
  { clear - Hact. induction Hact as [ | m l Hm _ IHl ]; [ reflexivity | ].
    cbn [active_motes List.filter]. rewrite Hm. f_equal. exact IHl. }
  rewrite Hall, Hpass.
  replace (j * length ms + length ms)%nat with (S j * length ms)%nat by lia.
  rewrite IH.
  replace (S k * length ms)%nat with (length ms + k * length ms)%nat by lia.
  rewrite seq_app, omap_app.
  replace (j * length ms + length ms)%nat with (S j * length ms)%nat by lia.
  reflexivity.
Qed.

Lemma run_readings_length (rng : nat -> Draws * Z) (ms : list SmartDustMote) (k : nat) :
  forall t, length (run_readings rng k t ms) = (k * length (active_motes ms))%nat.
Proof.
  induction k as [ | k IH ]; intros t; [ reflexivity | ].
  cbn [run_readings]. rewrite length_app, IH, pass_readings_length. lia.
Qed.

(** X18.  In a simulation created by [__init__] and run for [k]
    iterations from an empty console, the [k * num_motes] readings sensed
    are, in order, those of the motes visited in turn, each with the draws
    of its tick.  The global history holds the 1000 most recent of them.
    [check_and_alert] creates an alert for each of these readings that is
    above a threshold and for no other: the console callback has printed
    exactly these alerts, each once and in the order of the readings, and
    the alert log holds the 100 most recent of them. *)
Theorem simulation_prints_every_alert :
  forall (num_motes : Z) (layout : nat -> (float * float) * float)
         (rng : nat -> Draws * Z) (k : nat),
    exists (sim : SmartDustSimulation) (r : Running),
      SmartDustSimulation_init num_motes layout = Ok sim /\
      iterations rng k (start sim []) = Ok r /\
      length (sensed_readings rng (motes sim) k) = (k * Z.to_nat num_motes)%nat /\
      all_readings (processor (r_sim r))
        = last_n 1000 (sensed_readings rng (motes sim) k) /\
      printed_alerts (r_console r)
        = map (fun x => printed_of_alert (make_alert x (analyze_reading x)))
            (List.filter is_pollution_unsafe (sensed_readings rng (motes sim) k)) /\
      alerts (alert_system (r_sim r))
        = last_n 100
            (map (fun x => make_alert x (analyze_reading x))
               (List.filter is_pollution_unsafe (sensed_readings rng (motes sim) k))).
Proof.
  intros num_motes layout rng k.
  unfold SmartDustSimulation_init. rewrite create_motes_spec.
  cbn [mbind result_bind].
  set (ms := map _ (seq 0 (Z.to_nat num_motes))).
  set (sim := {| motes := ms; processor := DataProcessor_init;
                 alert_system := register_callback AlertSystem_init on_alert;
                 is_running := false; sampling_interval := 2.0 |}).
  exists sim.
  assert (Hact : Forall (fun m => is_active m = true) ms).
  { apply Forall_forall. intros m Hm.
    apply list_elem_of_In, in_map_iff in Hm as (i & <- & _). reflexivity. }
  assert (Hstart : trace_inv [] (pass_start (start sim []))).
  { constructor; reflexivity. }
  destruct (iterations_trace rng ms k [] (start sim []) Hstart eq_refl)
    as (r & Hrun & [Hcb Hrd Hal Hco Ht] & Hid).
  cbn [app length] in *.
  pose proof (run_readings_closed rng ms Hact k 0) as Hclosed.
  cbn [Nat.mul] in Hclosed. fold (sensed_readings rng ms k) in Hclosed.
  rewrite Hclosed in *.
  unfold pass_start in *. cbn [p_alerts p_processor p_console p_ticks] in *.
  exists r. split; [ reflexivity | split; [ exact Hrun | ] ].
  change (motes sim) with ms.
  split; [ | split; [ exact Hrd | split ] ].
  - rewrite <- Hclosed, run_readings_length.
    assert (Hall : active_motes ms = ms).
    { clear - Hact. induction Hact as [ | m l Hm _ IHl ]; [ reflexivity | ].
      cbn [active_motes List.filter]. rewrite Hm. f_equal. exact IHl. }
    rewrite Hall. subst ms. rewrite length_map, length_seq. reflexivity.
  - rewrite Hco. unfold raised_by. rewrite map_map. reflexivity.
  - exact Hal.
Qed.

Lemma simulation_prints_every_alert_witness :
  exists r : Running,
    (sim ← SmartDustSimulation_init 2 dusty; iterations calm 3 (start sim []))
      = Ok r /\
    length (all_readings (processor (r_sim r))) = 6%nat /\
    length (printed_alerts (r_console r)) = 6%nat /\
    map a_mote_id (alerts (alert_system (r_sim r)))
      = ["MOTE-001"; "MOTE-002"; "MOTE-001"; "MOTE-002"; "MOTE-001"; "MOTE-002"].
Proof.
  destruct (simulation_prints_every_alert 2 dusty calm 3)
    as (sim & r & Hinit & Hrun & Hlen & Hrd & Hco & Hal).
  exists r. rewrite Hinit. cbn [mbind result_bind].
  split; [ exact Hrun | ].
  rewrite Hrd, Hco, Hal. clear Hrun Hlen Hrd Hco Hal r.
  vm_compute in Hinit. injection Hinit as <-.
  split; [ vm_compute; reflexivity | split; vm_compute; reflexivity ].
Defined.

Lemma pollution_map_loop_ok (ms : list SmartDustMote) :
  forall acc, exists pm, pollution_map_loop ms acc = Ok pm.
Proof.
  induction ms as [ | m rest IH ]; intros acc; [ exists acc; reflexivity | ].
  cbn [pollution_map_loop]. destruct (is_active m); [ | apply IH ].
  rewrite get_average_pollution_ok. cbn [mbind result_bind]. apply IH.
Qed.

(** X19.  [get_data_for_visualization] never raises, whatever the state
    of the simulation.  Its ["recent_readings"] are the 50 most recent
    readings of the global history (all of them when fewer), oldest
    first, each with its mote, time, PM2.5, PM10 and location; its
    ["alerts"] are the 10 most recent alerts; its statistics are absent
    exactly when no reading is stored. *)
Theorem visualization_data_is_recent :
  forall sim : SmartDustSimulation,
    exists data : VisualizationData,
      get_data_for_visualization sim = Ok data /\
      vd_recent_readings data
        = map reading_view (last_n 50 (all_readings (processor sim))) /\
      length (vd_recent_readings data)
        = Nat.min 50 (length (all_readings (processor sim))) /\
      vd_alerts data = last_n 10 (alerts (alert_system sim)) /\
      (vd_statistics data = None <-> all_readings (processor sim) = []) /\
      get_statistics (processor sim) = Ok (vd_statistics data) /\
      get_pollution_map (motes sim) = Ok (vd_pollution_map data).
Proof.
  intros sim. unfold get_data_for_visualization.
  destruct (pollution_map_loop_ok (motes sim) ∅) as [pm Hpm].
  fold (get_pollution_map (motes sim)) in Hpm.
  assert (Hstats : exists o, get_statistics (processor sim) = Ok o /\
                             (o = None <-> all_readings (processor sim) = [])).
  { destruct (all_readings (processor sim)) as [ | r0 rs ] eqn:Hall.
    - exists None. unfold get_statistics. rewrite Hall. tauto.
    - eexists. split; [ apply get_statistics_nonempty; congruence | ].
      split; discriminate. }
  destruct Hstats as (o & Ho & Hnone).
  rewrite Ho, Hpm. cbn [mbind result_bind].
  eexists. split; [ reflexivity | ].
  cbn [vd_recent_readings vd_alerts vd_statistics vd_pollution_map].
  replace (Builtin.slice_from (-50) (all_readings (processor sim)))
    with (last_n 50 (all_readings (processor sim)))
    by (symmetry; apply (slice_from_neg 50); lia).
  split; [ reflexivity | ].
  split; [ rewrite length_map, last_n_length; reflexivity | ].
  split; [ | auto ].
  unfold get_recent_alerts.
  destruct (alerts (alert_system sim)) as [ | a0 rest ]; [ reflexivity | ].
  apply (slice_from_neg 10). lia.
Qed.

(** ** Registration of callbacks *)

Lemma trigger_callbacks_snoc {W} (cbs : list (Callback W)) (cb : Callback W) :
  forall (i : nat) (alert : Alert) (w : W),
    trigger_callbacks (cbs ++ [cb]) i alert w =
    let n := trigger_callbacks cbs i alert w in
    match n_raised n with
    | Some e => n
    | None =>
        {| n_world := fst (cb alert (n_world n));
           n_called := n_called n ++ [(i + length cbs)%nat];
           n_raised := snd (cb alert (n_world n)) |}
    end.
Proof.
  induction cbs as [ | c rest IH ]; intros i alert w; cbv zeta.
  - cbn. destruct (cb alert w) as [w' [e | ]]; cbn; rewrite ?Nat.add_0_r; reflexivity.
  - cbn [app trigger_callbacks]. destruct (c alert w) as [w' [e | ]].
    + reflexivity.
    + rewrite IH. cbv zeta. cbn [n_raised n_world n_called length].
      set (t := trigger_callbacks rest (S i) alert w').
      destruct (n_raised t) as [e | ] eqn:Ht; cbn [n_raised n_world n_called].
      * rewrite Ht. reflexivity.
      * cbn [app]. replace (S i + length rest)%nat with (i + S (length rest))%nat by lia.
        reflexivity.
Qed.

(** X20.  [register_callback] leaves the alert log alone and puts the new
    callback after those already registered.  On the next UNSAFE
    evaluation the earlier callbacks run exactly as before; if none of
    them raises, the new callback is called last, on the state they left,
    and its outcome is the outcome of the notification; if one of them
    raises, the new callback is not called.  A callback registered twice
    is called twice. *)
Theorem register_callback_runs_last :
  forall (W : Type) (s : AlertSystem W) (cb : Callback W)
         (r : DustReading) (a : Analysis) (w : W),
    status a = UNSAFE ->
    let before := snd (check_and_alert s r a w) in
    let after := snd (check_and_alert (register_callback s cb) r a w) in
    alerts (register_callback s cb) = alerts s /\
    alert_callbacks (register_callback s cb) = alert_callbacks s ++ [cb] /\
    alerts (fst (check_and_alert (register_callback s cb) r a w))
      = alerts (fst (check_and_alert s r a w)) /\
    (n_raised before <> None -> after = before) /\
    (n_raised before = None ->
       n_called after = n_called before ++ [length (alert_callbacks s)] /\
       n_world after = fst (cb (make_alert r a) (n_world before)) /\
       n_raised after = snd (cb (make_alert r a) (n_world before))).
Proof.
  intros W s cb r a w Hunsafe before after. subst before after.
  unfold check_and_alert. rewrite Hunsafe.
  cbn [register_callback alerts alert_callbacks fst snd].
  rewrite trigger_callbacks_snoc. cbv zeta.
  destruct (n_raised (trigger_callbacks (alert_callbacks s) 0 (make_alert r a) w))
    as [e | ] eqn:Hraised.
  - repeat split; try reflexivity; try discriminate.
  - repeat split; try reflexivity. congruence.
Qed.

Lemma register_callback_runs_last_witness :
  status (analyze_reading (sample_reading 60 10)) = UNSAFE /\
  n_called (snd (check_and_alert
                   (register_callback
                      (register_callback AlertSystem_init (logging_callback "a"))
                      (logging_callback "a"))
                   (sample_reading 60 10) (analyze_reading (sample_reading 60 10)) []))
  = [0%nat; 1%nat].
Proof.
  split; [ reflexivity | ].
  destruct (register_callback_runs_last (list string)
              (register_callback AlertSystem_init (logging_callback "a"))
              (logging_callback "a") (sample_reading 60 10)
              (analyze_reading (sample_reading 60 10)) [] eq_refl)
    as (_ & _ & _ & _ & H).
  destruct (H eq_refl) as (Hcalled & _). exact Hcalled.
Defined.

(** ** The final report *)

(** X21.  A simulation created by [__init__] and run for [k] iterations
    ends without raising, no longer running, and its final report counts
    what is stored, not what happened: "Total Readings Collected" is the
    number of readings taken capped at 1000, "Total Alerts Generated" the
    number of alerts printed during the run capped at 100, at most five
    recent alerts are listed, and the pollution map has an entry for every
    mote. *)
Theorem final_report_totals_saturate :
  forall (num_motes : Z) (layout : nat -> (float * float) * float)
         (rng : nat -> Draws * Z) (k : nat),
    exists (sim sim' : SmartDustSimulation) (console : Console)
           (report : FinalReport),
      SmartDustSimulation_init num_motes layout = Ok sim /\
      start_simulation rng k sim [] = Ok (sim', console, report) /\
      is_running sim' = false /\
      fr_total_readings report = Nat.min 1000 (k * Z.to_nat num_motes) /\
      fr_total_alerts report = Nat.min 100 (length (printed_alerts console)) /\
      length (fr_recent_alerts report) = Nat.min 5 (fr_total_alerts report) /\
      (forall i, (i < Z.to_nat num_motes)%nat ->
         is_Some (fr_pollution_map report !! mote_name i)).
Proof.
  intros num_motes layout rng k.
  destruct (init_run_inv num_motes layout) as (sim & Hinit & Hlen & Hnames & Hinv).
  destruct (iterations_inv rng _ k [] (start sim []) Hinv)
    as (r & new & Hrun & [Hpass Hid Hact Hhist Hticks Hrunning] & Hit).
  cbn [start r_iteration] in Hit.
  destruct Hpass as [Hcb Hrd Hgen Hal Hco Hcnt].
  unfold pass_start in *. cbn [p_alerts p_processor p_console p_ticks app] in *.
  rewrite length_map, Hlen, Hit in Hticks. cbn [Nat.add] in Hticks.
  assert (Hnd : NoDup (map m_mote_id (motes (r_sim r)))).
  { replace (map m_mote_id (motes (r_sim r)))
      with (map (fun i : string * (float * float) * float * bool => fst (fst (fst i)))
              (map mote_identity (motes (r_sim r))))
      by (rewrite map_map; reflexivity).
    rewrite Hid, map_map.
    change (fun x : SmartDustMote => fst (fst (fst (mote_identity x)))) with m_mote_id.
    rewrite Hnames. apply NoDup_mote_names. }
  destruct (pollution_map_loop_spec (motes (r_sim r)) ∅ Hnd) as (pm & Hpm & Hin & _).
  fold (get_pollution_map (motes (r_sim r))) in Hpm.
  assert (Hstats : exists o, get_statistics (processor (r_sim r)) = Ok o /\
            from_option total_readings 0%nat o
            = length (all_readings (processor (r_sim r)))).
  { destruct (all_readings (processor (r_sim r))) as [ | r0 rs ] eqn:Hall.
    - exists None. unfold get_statistics. rewrite Hall. auto.
    - eexists. split; [ apply get_statistics_nonempty; congruence | ].
      cbn [from_option total_readings]. rewrite Hall. reflexivity. }
  destruct Hstats as (o & Ho & Htotal).
  eexists sim, _, (r_console r), _.
  split; [ exact Hinit | ].
  unfold start_simulation. rewrite Hrun. cbn [mbind result_bind].
  unfold stop_simulation. cbn [motes processor alert_system].
  rewrite Ho, Hpm. cbn [mbind result_bind].
  split; [ reflexivity | ].
  cbn [is_running fr_total_readings fr_total_alerts fr_recent_alerts fr_pollution_map].
  split; [ reflexivity | ].
  split; [ rewrite Htotal, Hcnt, Hticks; reflexivity | ].
  split; [ rewrite Hal, last_n_length, Hco, length_map; reflexivity | ].
  split.
  - unfold get_recent_alerts.
    destruct (alerts (alert_system (r_sim r))) as [ | a0 rest ] eqn:Ha;
      [ reflexivity | ].
    rewrite length_map, (slice_from_neg 5) by lia. apply last_n_length.
  - intros i Hi.
    assert (Hm : exists m, In m (motes (r_sim r)) /\ m_mote_id m = mote_name i /\
                           is_active m = true).
    { assert (Hi' : In (mote_name i) (map m_mote_id (motes sim))).
      { rewrite Hnames. apply in_map, in_seq. lia. }
      assert (Hident : In (mote_name i)
                 (map (fun j : string * (float * float) * float * bool =>
                         fst (fst (fst j))) (map mote_identity (motes (r_sim r))))).
      { rewrite Hid, map_map. exact Hi'. }
      rewrite map_map in Hident. apply in_map_iff in Hident as (m & Hname & Hm).
      exists m. split; [ exact Hm | split; [ exact Hname | ] ].
      rewrite Forall_forall in Hact.
      apply (Hact (mote_identity m)), list_elem_of_In.
      rewrite <- Hid. apply in_map, Hm. }
    destruct Hm as (m & Hm & Hname & Hactive).
    rewrite <- Hname, (Hin m Hm Hactive). eexists. reflexivity.
Qed.

(** ** The reading generator: clamping, rounding and recording *)

(** C9.  [sense] is total: for every mote and all draws (NaN and
    infinities included) it returns a reading and the updated mote.  The
    reading has PM2.5 >= 0, PM10 >= 0 and humidity within [[0, 100]].  A
    raw PM value that is not above zero is replaced by 0, a raw humidity
    that is not below 100 by 100 and one that is not above zero by 0;
    every other raw value, and the temperature, is rounded to two
    decimals.  The reading carries the identifier and the location of the
    mote and the current time, the mote keeps its identifier, location,
    intensity and active flag, and the reading is appended to its history:
    at the end of the old history when that holds fewer than 100
    readings, and in place of the oldest reading when it holds 100. *)
Theorem sense_reading_is_clamped_and_rounded :
  forall (m : SmartDustMote) (d : Draws) (now : Z),
    let raw25 := ((10.0 + base_pollution m * 40.0) * (1.0 + 0.3 * g_time d)
                  + g_pm25 d)%float in
    let raw10 := ((20.0 + base_pollution m * 60.0) * (1.0 + 0.3 * g_time d)
                  + g_pm10 d)%float in
    let rawt := (20.0 + g_temp d)%float in
    let rawh := (40.0 + g_hum d)%float in
    exists (r : DustReading) (m' : SmartDustMote),
      sense m d now = (r, m') /\
      (Py.ge (pm25 r) 0 = true /\ Py.ge (pm10 r) 0 = true /\
       Py.ge (humidity r) 0 = true /\ Py.le (humidity r) 100 = true) /\
      (if Py.gt raw25 0 then rounded_to_2_decimals raw25 (pm25 r)
       else pm25 r = 0%float) /\
      (if Py.gt raw10 0 then rounded_to_2_decimals raw10 (pm10 r)
       else pm10 r = 0%float) /\
      rounded_to_2_decimals rawt (temperature r) /\
      (if Py.lt rawh 100
       then if Py.gt rawh 0 then rounded_to_2_decimals rawh (humidity r)
            else humidity r = 0%float
       else humidity r = 100%float) /\
      (mote_id r = m_mote_id m /\ location r = m_location m /\ timestamp r = now) /\
      (m_mote_id m' = m_mote_id m /\ m_location m' = m_location m /\
       base_pollution m' = base_pollution m /\ is_active m' = is_active m) /\
      ((length (reading_history m) < 100)%nat ->
         reading_history m' = reading_history m ++ [r]) /\
      (length (reading_history m) = 100%nat ->
         reading_history m' = tail (reading_history m) ++ [r]).
Proof.
  intros m d now raw25 raw10 rawt rawh.
  eexists. eexists. split; [ reflexivity | ].
  cbn [pm25 pm10 temperature humidity mote_id location timestamp
       m_mote_id m_location base_pollution is_active reading_history].
  split.
  { destruct (min_max_bounds rawh) as [Hlo Hhi].
    split; [ apply round2_nonneg, max_zero_nonneg | ].
    split; [ apply round2_nonneg, max_zero_nonneg | ].
    split; [ apply round2_nonneg, Hlo | apply round2_le_100; assumption ]. }
  split.
  { unfold sense_pm25, Builtin.max. fold raw25.
    destruct (Py.gt raw25 0); [ apply round2_rounds | apply round2_zero ]. }
  split.
  { unfold sense_pm10, Builtin.max. fold raw10.
    destruct (Py.gt raw10 0); [ apply round2_rounds | apply round2_zero ]. }
  split; [ apply round2_rounds | ].
  split.
  { unfold sense_humidity, Builtin.max, Builtin.min. fold rawh.
    destruct (Py.lt rawh 100).
    - destruct (Py.gt rawh 0); [ apply round2_rounds | apply round2_zero ].
    - replace (Py.gt 100 0) with true by (vm_compute; reflexivity).
      apply round2_hundred. }
  split; [ auto | ]. split; [ auto | ].
  unfold Builtin.deque_append, HISTORY_MAXLEN. rewrite length_app. cbn [length].
  split; intros Hlen.
  - destruct (Nat.ltb_spec 100 (length (reading_history m) + 1)); [ lia | reflexivity ].
  - destruct (Nat.ltb_spec 100 (length (reading_history m) + 1)); [ | lia ].
    destruct (reading_history m); [ discriminate Hlen | reflexivity ].
Qed.

Lemma sense_reading_is_clamped_and_rounded_witness :
  (exists r m',
     sense clean_mote halves 5 = (r, m') /\
     pm25 r = 10.12%float /\ pm10 r = 20.62%float /\
     temperature r = 20.38%float /\ humidity r = 100%float /\
     reading_history m' = [r]) /\
  (exists r m',
     sense clean_mote stormy 6 = (r, m') /\
     pm25 r = 0%float /\ pm10 r = 20%float /\ humidity r = 0%float).
Proof.
  split.
  - destruct (sense_reading_is_clamped_and_rounded clean_mote halves 5)
      as (r & m' & Hs & _ & H25 & H10 & Ht & Hh & _ & _ & Hshort & _).
    exists r, m'. split; [ exact Hs | ].
    split.
    { match type of H25 with
      | (if ?c then _ else _) => replace c with true in H25 by (vm_compute; reflexivity)
      end.
      match type of H25 with
      | rounded_to_2_decimals ?x _ =>
          apply (rounded_to_2_decimals_unique x _ _ H25);
          replace 10.12%float with (Builtin.round2 x) by (vm_compute; reflexivity);
          apply round2_rounds
      end. }
    split.
    { match type of H10 with
      | (if ?c then _ else _) => replace c with true in H10 by (vm_compute; reflexivity)
      end.
      match type of H10 with
      | rounded_to_2_decimals ?x _ =>
          apply (rounded_to_2_decimals_unique x _ _ H10);
          replace 20.62%float with (Builtin.round2 x) by (vm_compute; reflexivity);
          apply round2_rounds
      end. }
    split.
    { match type of Ht with
      | rounded_to_2_decimals ?x _ =>
          apply (rounded_to_2_decimals_unique x _ _ Ht);
          replace 20.38%float with (Builtin.round2 x) by (vm_compute; reflexivity);
          apply round2_rounds
      end. }
    split.
    { match type of Hh with
      | (if ?c then _ else _) => replace c with false in Hh by (vm_compute; reflexivity)
      end.
      exact Hh. }
    apply Hshort. cbn. lia.
  - destruct (sense_reading_is_clamped_and_rounded clean_mote stormy 6)
      as (r & m' & Hs & _ & H25 & H10 & _ & Hh & _).
    exists r, m'. split; [ exact Hs | ].
    split.
    { match type of H25 with
      | (if ?c then _ else _) => replace c with false in H25 by (vm_compute; reflexivity)
      end.
      exact H25. }
    split.
    { match type of H10 with
      | (if ?c then _ else _) => replace c with true in H10 by (vm_compute; reflexivity)
      end.
      match type of H10 with
      | rounded_to_2_decimals ?x _ =>
          apply (rounded_to_2_decimals_unique x _ _ H10);
          replace 20%float with (Builtin.round2 x) by (vm_compute; reflexivity);
          apply round2_rounds
      end. }
    match type of Hh with
    | (if ?c then _ else _) => replace c with true in Hh by (vm_compute; reflexivity)
    end.
    match type of Hh with
    | (if ?c then _ else _) => replace c with false in Hh by (vm_compute; reflexivity)
    end.
    exact Hh.
Defined.

(** ** The order of floats and the extremes of a list *)












(** ** The statistics snapshot *)



